(* ===== verification/_CoqProject ===== *)
-Q . S2P
Prelude.v
Items.v
Styles.v
Render.v
Visible.v
Markup.v
Interaction.v
Liveness.v
Roundtrip.v
Relabel.v
Reachable.v
