(* ===== verification/Prelude.v ===== *)
(** * A verification of the table-of-contents tree renderer

    The program is [src/src/components/table-of-contents/TableOfContentsItems.tsx]
    of the design-system repository: a React component that renders a
    nested, collapsible navigation tree.  Its parts, and how they interact:

    - the item model ([ItemType], [Item], [ItemWithId], [ItemWithStateAndId],
      lines 13-28): a forest of entries, each with a title, a type tag, an
      optional path, optional children, an id and an optional [isOpen] flag;
    - the type-to-component lookup [getItemComponent] (lines 30-41), a
      [switch] on the tag that returns [Menu], [ItemLink], [BulletLink] or
      [null];
    - the styled components [TopLevelMenuToggle], [ArrowIcon] and [List]
      (lines 43-76, 122-161), whose CSS depends on [isOpen] / [isTopLevel];
    - [Menu] (lines 78-120): [null] without children, otherwise a toggle
      whose [onClick] calls [setMenuOpenStateById({id, isOpen: !isOpen})],
      and, when the item is open, [TableOfContentsItems] on the children with
      [isTopLevel={false}];
    - [TableOfContentsItems] (lines 163-200), the entry point: [ol] when every
      item is a [bullet-link], [ul] otherwise, and each item rendered by the
      component of its tag, keyed by its title;
    - the owner of the open state, outside the sources: it receives the
      [{id, isOpen}] requests and re-renders.

    ** Files, and how they correspond to the code

    - [Prelude] (this file): the [result] error monad (notation
      [x <- m ;; k] in [toc_scope]), [traverse] (the model of
      [Array.prototype.map] over a renderer that may throw), JavaScript
      truthiness of [boolean | undefined] ([truthy]), the hint databases
      [toc] / [toc_rw] and the list lemmas the components share.
    - [Items]: [Item] is one nested record for the three interfaces (at run
      time an item is one object carrying all their fields); its [type] is
      the run-time string, so [getItemComponent]'s [default] is reachable.
      [Item_ind] is the induction principle of the nested type.
    - [Styles]: each styled component's CSS as declarations under selector
      paths, computed from the props by the template literal's
      interpolations (falsy ones dropped, as styled-components does); the
      theme tokens are section variables.
    - [Render]: the mounted tree [vnode]; [Menu] is a structural fixpoint on
      the item that passes itself to [TableOfContentsItems_with], the body of
      [TableOfContentsItems]; rendering is in the [result] monad because
      React throws on an element of type [null].  [ItemLink], [BulletLink],
      [MenuLink] live in files that are not in the sources: they are leaves
      carrying the props they are given.
    - [Visible]: the abstract specification ([visible], an inductive
      relation: roots, and children of visible open menus), its executable
      pre-order forms ([reach], [shown]), the reading of a mounted tree as
      entries ([entries]) and the refinement theorems.
    - [Interaction]: the owner of the open state as a class
      [MenuStateOwner] with its law [MenuStateOwnerLaws] (set the flag of the
      items with the id, nothing else); two implementations modelled from the
      specification, [TreeOwner] (flags in the tree) and [MapOwner] (a
      [gmap] from id to boolean, as the design notes propose); [click] (the
      call of the captured closure, a [TypeError] when no callback was
      given) and [step], the click / re-render loop of any lawful owner.
    - [Markup]: the shape of a successful render as a boolean predicate
      ([wf_markup]): lists hold [li]s, [null]s and links; an [li] holds a
      toggle and at most one nested, non-top-level list.
    - [Liveness]: every item under menus can be brought into view, within
      as many clicks as menus above it ([menu_path_at], [nsteps]), and the
      size of a render is bounded by the size of the forest.
    - [Roundtrip]: well-formed forests ([wf_forest]: known tags, unique
      ids); a toggle clicked twice with a re-render in between; the
      distinctness of the entries and of the ids the toggles request.
    - [Relabel]: the states of the loop as flag assignments: [relabel g]
      replaces every flag by [g] of its id, a click is [upd]; the menus
      open under an assignment ([open_path], computably [reach_g]); the
      [admissible] assignments (an item keeps its flag or is a menu with
      children given a defined flag; below a menu that stays undefined, or
      below an item that is not such a menu, nothing changes).
    - [Reachable]: the reachable states of the loop, exactly: soundness by
      induction on runs, completeness by a construction that opens menus
      from the root down and sets flags on the way back up.

    ** What is proved

    Every theorem below is about the code's definitions ([Menu],
    [TableOfContentsItems], [renderItem], [toggleOpenState], the styles);
    the owner of the open state enters only through its contract.

    - Refinement: a successful render shows exactly the specification's
      visible entries, in document order, each with the props and click
      request the code gives it ([TableOfContentsItems_refines]).
    - Errors: a render throws exactly when a visible item has an unknown
      tag ([TableOfContentsItems_ok_iff]); a [Menu] without children is
      [null] ([Menu_no_children]); a click throws when the optional callback
      is missing ([click_without_callback]).
    - Functional behaviour: [ol]/[ul] ([TableOfContentsItems_list_tag]), the
      empty list, keys, the two toggle variants with their arrow
      ([Menu_toggle_variant]), the effect of a click ([click_toggles_menu]),
      the threading of [currentPath] and the callback, the tag lookup, the
      CSS of [ArrowIcon] and [List].
    - Type of the output: a successful render is well-formed list markup,
      the structure the CSS of [List] selects on
      ([TableOfContentsItems_markup]).
    - Invariants and safety: only roots get the top-level toggle; with
      unique ids the entries of a render, and the ids its toggles request,
      are pairwise distinct ([entries_distinct]).
    - Roundtrip: on a well-formed forest a click flips the menu's flag, the
      toggle survives its own click, and a second click restores the flag;
      [undefined] comes back as [false] ([toggle_twice]).
    - Liveness and termination: an item below [d] menus is brought into
      view by at most [d] clicks ([menus_reach_visible_within]).
    - Reachable states: with unique ids, the states a run of any lawful
      owner reaches are exactly the admissible relabellings of the starting
      forest ([reachable_sound], and [reachable_complete] when the tags are
      known); in particular nothing below a menu whose flag is still
      [undefined] has changed ([undefined_menu_freezes]).
    - Bounds: a render has at most one entry per node of the forest
      ([TableOfContentsItems_size]).

    ** Bounds and fuel

    Every recursion (on items, on lists of items, on mounted trees) is
    structural, so every function is total and no fuel is used; the
    relations [visible], [menu_path_at], [open_path] and [step] are
    inductive.  The only bound is the length of the run that brings an item
    into view: the depth [d] of its [menu_path_at], which suffices because
    each click opens one closed menu of the path and opening never closes
    another.  The construction of [Reachable] sets each flag with at most
    two clicks (one when it flips the flag's truthiness), which is enough
    because the toggle stays rendered after its own click when ids are
    unique.

    ** Plan for further work

    - the React key collision as a counterexample with duplicate titles;
    - the attributes of [TopLevelMenuToggle] and [MenuLink] as rendered
      (button semantics), and the CSS of [TopLevelMenuToggle].

    ** Modelling choices

    The [onClick] closure of a [Menu] reads [item.isOpen] when it is
    called, from the [item] object captured at render time;
    [toggleOpenState] computes [!item.isOpen] at render time.  The two agree
    because the owners never mutate an item in place: [set_open_by_id]
    builds new items, as React state updates require.  [set_open_by_id]
    sets every item with the id; with unique ids (assumed by the theorems
    on runs) that is the single item the specification speaks of.

    ** Not modelled

    React's reconciliation, the DOM and styled-components' CSS injection
    (library code: only the invalid-element error, keys and the dropping of
    falsy interpolations are modelled); the internals of [ItemLink],
    [BulletLink], [MenuLink], [Link] and [Icon] (not in the sources); the
    theme tokens' values. *)

From stdpp Require Export base list strings decidable.

Declare Scope toc_scope.
Delimit Scope toc_scope with toc.
Open Scope toc_scope.

(** ** The result monad: a computation that returns or throws *)

Inductive result (E A : Type) : Type :=
| Ok (a : A)
| Err (e : E).
Arguments Ok {E A} a.
Arguments Err {E A} e.

Definition bind {E A B} (m : result E A) (k : A -> result E B) : result E B :=
  match m with
  | Ok a => k a
  | Err e => Err e
  end.

Notation "x <- m ;; k" := (bind m (fun x => k))
  (at level 100, m at next level, right associativity) : toc_scope.

Definition is_ok {E A} (r : result E A) : bool :=
  match r with Ok _ => true | Err _ => false end.

(** [traverse f l] is [l.map(f)] when [f] may throw: the first error
    aborts the whole map, as an exception does. *)
Fixpoint traverse {E A B} (f : A -> result E B) (l : list A) : result E (list B) :=
  match l with
  | [] => Ok []
  | a :: l' => b <- f a ;; bs <- traverse f l' ;; Ok (b :: bs)
  end.

(** ** JavaScript truthiness of an optional boolean *)

(** [boolean | undefined] is [option bool]; [undefined] is [None]. *)
Definition truthy (b : option bool) : bool :=
  match b with Some true => true | _ => false end.

Create HintDb toc.
Create Rewrite HintDb toc_rw.

(** ** Lemmas on results *)

Lemma bind_Ok {E A B} (a : A) (k : A -> result E B) : bind (Ok a) k = k a.
Proof. reflexivity. Qed.

Lemma bind_Err {E A B} (e : E) (k : A -> result E B) : bind (Err e) k = Err e.
Proof. reflexivity. Qed.

Lemma bind_eq_Ok {E A B} (m : result E A) (k : A -> result E B) b :
  bind m k = Ok b <-> exists a, m = Ok a /\ k a = Ok b.
Proof.
  destruct m as [a|e]; simpl; split.
  - intros H. by exists a.
  - by intros (a' & [= ->] & H).
  - done.
  - by intros (a' & ? & _).
Qed.

#[export] Hint Rewrite @bind_Ok @bind_Err : toc_rw.

Section Traverse.
Context {E A B : Type} (f : A -> result E B).

Lemma traverse_Ok_iff (l : list A) (l' : list B) :
  traverse f l = Ok l' <-> Forall2 (fun a b => f a = Ok b) l l'.
Proof.
  revert l'; induction l as [|a l IH]; intros l'; simpl.
  - split; [intros [= <-]; constructor | inversion 1; reflexivity].
  - rewrite bind_eq_Ok. split.
    + intros (b & Hb & H). apply bind_eq_Ok in H as (bs & Hbs & [= <-]).
      constructor; [done | by apply IH].
    + inversion 1 as [|? b ? bs Hb Hbs]; subst.
      exists b. split; [done |]. apply IH in Hbs. by rewrite Hbs.
Qed.

Lemma traverse_is_ok (l : list A) :
  is_ok (traverse f l) = forallb (fun a => is_ok (f a)) l.
Proof.
  induction l as [|a l IH]; simpl; [done |].
  destruct (f a); simpl; [| done]. rewrite <- IH. by destruct (traverse f l).
Qed.

End Traverse.

(** ** Lemmas on lists *)

Lemma forallb_Permutation {A} (p : A -> bool) (l l' : list A) :
  Permutation l l' -> forallb p l = forallb p l'.
Proof.
  induction 1; simpl; try congruence.
  by destruct (p x), (p y).
Qed.

Lemma forallb_Forall_iff {A} (p : A -> bool) (l : list A) :
  forallb p l = true <-> Forall (fun a => p a = true) l.
Proof. rewrite forallb_forall, Forall_forall. done. Qed.

Lemma forallb_flat_map {A B} (p : B -> bool) (f : A -> list B) (l : list A) :
  forallb p (flat_map f l) = forallb (fun a => forallb p (f a)) l.
Proof. induction l as [|a l IH]; simpl; [done |]. by rewrite forallb_app, IH. Qed.

Lemma is_ok_bind_Ok {E A B} (m : result E A) (f : A -> B) :
  is_ok (bind m (fun a => Ok (f a))) = is_ok m.
Proof. by destruct m. Qed.

Lemma forallb_ext_in {A} (p q : A -> bool) (l : list A) :
  (forall a, In a l -> p a = q a) -> forallb p l = forallb q l.
Proof.
  induction l as [|a l IH]; intros H; simpl; [done |].
  rewrite (H a (or_introl eq_refl)), IH; [done |]. intros b Hb. apply H. by right.
Qed.

Lemma map_flat_map_fst {A B C} (f : A -> list (B * C)) (l : list A) :
  map fst (flat_map f l) = flat_map (fun a => map fst (f a)) l.
Proof. induction l as [|a l IH]; simpl; [done |]. by rewrite map_app, IH. Qed.

Lemma forallb_map {A B} (p : B -> bool) (f : A -> B) (l : list A) :
  forallb p (map f l) = forallb (fun a => p (f a)) l.
Proof. induction l as [|a l IH]; simpl; [done |]. by rewrite IH. Qed.

Lemma length_flat_map_le {A B C} (f : A -> list B) (g : A -> list C) (l : list A) :
  (forall a, In a l -> length (f a) <= length (g a)) ->
  length (flat_map f l) <= length (flat_map g l).
Proof.
  induction l as [|a l IH]; intros H; simpl; [lia |]. rewrite !length_app.
  pose proof (H a (or_introl eq_refl)). enough (length (flat_map f l) <= length (flat_map g l)) by lia.
  apply IH. intros b Hb. apply H. by right.
Qed.

Lemma Forall2_In_r {A B} (R : A -> B -> Prop) (l : list A) (k : list B) (y : B) :
  Forall2 R l k -> In y k -> exists x, In x l /\ R x y.
Proof.
  induction 1 as [|x y' l k Hxy _ IH]; [done |]. intros [<- | Hy]; [by exists x; split; [left |] |].
  destruct (IH Hy) as (x' & Hx' & H). exists x'. split; [by right | done].
Qed.

Lemma map_flat_map {A B C} (g : B -> C) (f : A -> list B) (l : list A) :
  map g (flat_map f l) = flat_map (fun x => map g (f x)) l.
Proof. induction l as [|x l IH]; simpl; [done |]. by rewrite map_app, IH. Qed.

(** Keys that are unique in a list identify its elements. *)
Lemma NoDup_map_In_inj {A B} (f : A -> B) (l : list A) (a b : A) :
  NoDup (map f l) -> In a l -> In b l -> f a = f b -> a = b.
Proof.
  induction l as [|c l IH]; [done |]. simpl. intros [Hc Hnd]%list.NoDup_cons Ha Hb Hab.
  rewrite list_elem_of_In in Hc.
  destruct Ha as [<- | Ha], Hb as [<- | Hb]; [done | | | by apply IH].
  - exfalso. apply Hc. rewrite Hab. by apply in_map.
  - exfalso. apply Hc. rewrite <- Hab. by apply in_map.
Qed.

Lemma NoDup_flat_map_In {A B} (f : A -> list B) (l : list A) (a : A) :
  NoDup (flat_map f l) -> In a l -> NoDup (f a).
Proof.
  induction l as [|c l IH]; [done |]. simpl. intros Hnd [<- | Ha].
  - by apply list.NoDup_app in Hnd as [? _].
  - apply IH; [| done]. by apply list.NoDup_app in Hnd as (_ & _ & ?).
Qed.

Lemma sublist_map {A B} (f : A -> B) (l1 l2 : list A) :
  sublist l1 l2 -> sublist (map f l1) (map f l2).
Proof. induction 1; simpl; by constructor. Qed.

Lemma sublist_flat_map {A B} (f g : A -> list B) (l : list A) :
  (forall a, In a l -> sublist (f a) (g a)) -> sublist (flat_map f l) (flat_map g l).
Proof.
  induction l as [|a l IH]; intros H; simpl; [constructor |].
  apply sublist_app; [by apply H; left | apply IH; intros b Hb; apply H; by right].
Qed.

(** Distinct keys give distinct images when equal images have equal keys. *)
Lemma NoDup_map_weaken {A B C} (f : A -> B) (g : A -> C) (l : list A) :
  (forall a b, In a l -> In b l -> f a = f b -> g a = g b) -> NoDup (map g l) -> NoDup (map f l).
Proof.
  induction l as [|a l IH]; intros Hfg Hnd; simpl in *; [constructor |].
  apply list.NoDup_cons in Hnd as [Ha Hnd]. apply list.NoDup_cons. split.
  - intros Hin%list_elem_of_In. apply Ha, list_elem_of_In.
    apply in_map_iff in Hin as (b & Hb & Hl). apply in_map_iff. exists b. split; [| done]. symmetry. apply Hfg; [by left | by right | done].
  - apply IH; [| done]. intros x y Hx Hy. apply Hfg; by right.
Qed.
