(* ===== verification/Items.v ===== *)
(** * Items: the item model and the type-to-component lookup

    Models lines 13-41 of [TableOfContentsItems.tsx]: the [ItemType] tags,
    the [Item] / [ItemWithId] / [ItemWithStateAndId] interfaces and
    [getItemComponent].  At run time an item is one JavaScript object that
    carries all the fields of [ItemWithStateAndId]; the model is that object.
    Its [type] field is kept as the string it is at run time, so that the
    [default] branch of the [switch] is reachable in the model as it is in
    JavaScript. *)

From S2P Require Import Prelude.

(** ** The type tags *)

Inductive ItemType : Type :=
| menu
| link
| bullet_link.

#[export] Instance ItemType_eq_dec : EqDecision ItemType.
Proof. solve_decision. Defined.

(** The string literal of each member of the union type [ItemType]. *)
Definition ItemType_to_string (t : ItemType) : string :=
  match t with
  | menu => "menu"
  | link => "link"
  | bullet_link => "bullet-link"
  end.

(** ** Items *)

(** [ItemWithStateAndId]: [title], [type], [path?], [children?] from
    [Item], [id] from [ItemWithId], [isOpen?] from [ItemWithStateAndId].
    An optional field is an [option]; [undefined] is [None]. *)
Unset Elimination Schemes.
Inductive Item : Type := mkItem {
  title : string;
  type : string;
  path : option string;
  children : option (list Item);
  id : string;
  isOpen : option bool
}.
Set Elimination Schemes.

(** [P] holds of every child, when there are children. *)
Definition children_Forall (P : Item -> Prop) (cs : option (list Item)) : Prop :=
  match cs with None => True | Some l => Forall P l end.

(** The induction principle of the nested type: the hypothesis holds of
    every child of a node. *)
Section Item_ind.
Variable P : Item -> Prop.
Hypothesis H : forall t ty p cs i o, children_Forall P cs -> P (mkItem t ty p cs i o).

Fixpoint Item_ind (it : Item) : P it :=
  let fix go (l : list Item) : Forall P l :=
    match l with
    | [] => Forall_nil P
    | c :: l' => Forall_cons P c l' (Item_ind c) (go l')
    end in
  match it with
  | mkItem t ty p cs i o =>
      H t ty p cs i o
        (match cs return children_Forall P cs with None => I | Some l => go l end)
  end.
End Item_ind.

(** ** The type-to-component lookup *)

(** The components an item can be rendered with. *)
Inductive Component : Type :=
| CMenu
| CItemLink
| CBulletLink.

#[export] Instance Component_eq_dec : EqDecision Component.
Proof. solve_decision. Defined.

(** [getItemComponent]: the [switch] compares the tag with [===];
    [default] returns [null], here [None]. *)
Definition getItemComponent (itemType : string) : option Component :=
  if String.eqb itemType "menu" then Some CMenu
  else if String.eqb itemType "link" then Some CItemLink
  else if String.eqb itemType "bullet-link" then Some CBulletLink
  else None.

(** Case analysis on the component [getItemComponent] gives an item. *)
Tactic Notation "destruct_tag" constr(x) :=
  destruct (getItemComponent (type x)) as [[]|].
Tactic Notation "destruct_tag" constr(x) "eqn" ":" ident(E) :=
  destruct (getItemComponent (type x)) as [[]|] eqn:E.

(** The component each tag is meant to select. *)
Definition component_of_type (t : ItemType) : Component :=
  match t with
  | menu => CMenu
  | link => CItemLink
  | bullet_link => CBulletLink
  end.

(** ** Lemmas *)

(** C20: [getItemComponent] returns a component exactly for the three
    string literals of [ItemType], and for each it returns the component of
    that tag; any other string falls to [default] and yields [null]. *)
Theorem getItemComponent_spec (s : string) (c : Component) :
  getItemComponent s = Some c <->
  exists t, s = ItemType_to_string t /\ c = component_of_type t.
Proof.
  unfold getItemComponent. split.
  - destruct (String.eqb_spec s "menu") as [->|]; [intros [= <-]; by exists menu |].
    destruct (String.eqb_spec s "link") as [->|]; [intros [= <-]; by exists link |].
    destruct (String.eqb_spec s "bullet-link") as [->|]; [intros [= <-]; by exists bullet_link | done].
  - intros ([] & -> & ->); reflexivity.
Qed.

