(* ===== verification/Styles.v ===== *)
(** * Styles: the CSS of the styled components

    Models [TopLevelMenuToggle] (lines 43-60), [ArrowIcon] with its props
    (lines 62-76) and [List] (lines 122-161).  A styled component's CSS is
    a list of declarations, each under the path of nested selectors it is
    written in; a declaration written later wins, as in the cascade.
    Interpolations follow styled-components: a function of the props is
    called, and a falsy result ([false], [undefined]) contributes nothing.
    The theme tokens [color.mediumdark] and [typography.weight.bold] come
    from [../shared/styles], which is not part of this development: they are
    the section variables of [Theme]. *)

From S2P Require Import Prelude.

(** ** Declarations and interpolations *)

Record Decl : Type := mkDecl {
  selector : list string;
  property : string;
  value : string
}.

#[export] Instance Decl_eq_dec : EqDecision Decl.
Proof. solve_decision. Defined.

(** The value of a JavaScript expression used as an interpolation. *)
Inductive Interp : Type :=
| IStr (s : string)
| IFalse
| IUndefined.

(** What styled-components writes for an interpolation: falsy values are
    dropped. *)
Definition flatten (i : Interp) : string :=
  match i with IStr s => s | IFalse | IUndefined => "" end.

(** [b && s] for [b : boolean | undefined]: the left operand when it is
    falsy, the right one otherwise. *)
Definition js_and_str (b : option bool) (s : string) : Interp :=
  match b with
  | Some true => IStr s
  | Some false => IFalse
  | None => IUndefined
  end.

(** The declaration of [prop] under [sel] that the cascade keeps: the last
    one written. *)
Definition lookup_decl (sel : list string) (prop : string) (ds : list Decl) : option string :=
  fold_left (fun acc d =>
    if decide (selector d = sel /\ property d = prop) then Some (value d) else acc) ds None.

(** ** The styled components *)

(** The attributes that [.attrs] fixes on [Link] and on [Icon]. *)
Record LinkAttrs : Type := mkLinkAttrs { isButton : bool; tertiary : bool }.

Definition TopLevelMenuToggle_attrs : LinkAttrs := mkLinkAttrs true true.

Definition ArrowIcon_icon : string := "arrowright".

(** The props [ArrowIcon] is rendered with: the two of [ArrowIconProps],
    the [icon] attribute and [aria-hidden]. *)
Record ArrowIconProps : Type := mkArrowIconProps {
  ai_isOpen : option bool;
  ai_isTopLevel : option bool;
  ai_icon : string;
  ai_ariaHidden : bool
}.

Section Theme.
Variable color_mediumdark : string.
Variable typography_weight_bold : string.

Definition TopLevelMenuToggle_css : list Decl := [
  mkDecl [] "font-weight" typography_weight_bold;
  mkDecl [] "line-height" "24px";
  mkDecl [] "word-break" "break-word";
  mkDecl [] "text-align" "left";
  mkDecl ["> span"] "display" "flex";
  mkDecl ["> span"; "svg"] "flex" "none";
  mkDecl ["> span"; "span"] "flex" "1"
].

Definition ArrowIcon_css (props : ArrowIconProps) : list Decl := [
  mkDecl ["&&"] "width" "12px";
  mkDecl ["&&"] "height" "12px";
  mkDecl ["&&"] "color" color_mediumdark;
  mkDecl ["&&"] "transform"
    ("translateY(1px) " ++ flatten (js_and_str (ai_isOpen props) "rotate(90deg)"));
  (if truthy (ai_isTopLevel props)
   then mkDecl ["&&"] "margin-right" "8px"
   else mkDecl ["&&"] "margin-left" "8px");
  mkDecl ["&&"] "bottom" "-0.25em"
].
End Theme.

(** [List]: the rules every list has, then those of a top-level list. *)
Definition List_base_css : list Decl := [
  mkDecl [] "list-style-type" "none";
  mkDecl [] "padding" "0";
  mkDecl [] "margin" "0";
  mkDecl ["li"] "padding-top" "12px";
  mkDecl ["li"; "&:first-child"] "padding-top" "0"
].

Definition List_topLevel_css : list Decl := [
  mkDecl ["> li"] "padding-top" "24px";
  mkDecl ["> li"; "ul, ol"] "padding-top" "12px";
  mkDecl ["> li"; "ul, ol"] "display" "flex";
  mkDecl ["> li"; "ul, ol"] "flex-direction" "column";
  mkDecl ["> li"; "> ul"] "padding-left" "35px";
  mkDecl ["> li"; "> ul"; "> li ul"] "padding-left" "15px";
  mkDecl ["> li"; "> ol"] "padding-left" "20px"
].

(** [props.isTopLevel && css`...`]: the top-level block is written only
    when [isTopLevel] is truthy. *)
Definition List_css (isTopLevel : option bool) : list Decl :=
  List_base_css ++ (if truthy isTopLevel then List_topLevel_css else []).

(** ** Theorems *)

Section ThemeTheorems.
Variable color_mediumdark typography_weight_bold : string.

Lemma ArrowIcon_css_lookups (props : ArrowIconProps) :
  lookup_decl ["&&"] "transform" (ArrowIcon_css color_mediumdark props) =
    Some (if truthy (ai_isOpen props) then "translateY(1px) rotate(90deg)" else "translateY(1px) ") /\
  lookup_decl ["&&"] "margin-right" (ArrowIcon_css color_mediumdark props) =
    (if truthy (ai_isTopLevel props) then Some "8px" else None) /\
  lookup_decl ["&&"] "margin-left" (ArrowIcon_css color_mediumdark props) =
    (if truthy (ai_isTopLevel props) then None else Some "8px").
Proof.
  destruct props as [[[]|] [[]|] ic ah]; split_and!; reflexivity.
Qed.

(** C21: [ArrowIcon]: the arrow is rotated by 90 degrees exactly when
    [isOpen] is truthy ([false] and [undefined] interpolate to nothing);
    its 8px margin is on the right at top level and on the left otherwise,
    and never on both sides. *)
Theorem ArrowIcon_css_spec (props : ArrowIconProps) :
  lookup_decl ["&&"] "transform" (ArrowIcon_css color_mediumdark props) =
    Some (if truthy (ai_isOpen props) then "translateY(1px) rotate(90deg)" else "translateY(1px) ") /\
  lookup_decl ["&&"] "margin-right" (ArrowIcon_css color_mediumdark props) =
    (if truthy (ai_isTopLevel props) then Some "8px" else None) /\
  lookup_decl ["&&"] "margin-left" (ArrowIcon_css color_mediumdark props) =
    (if truthy (ai_isTopLevel props) then None else Some "8px").
Proof. apply ArrowIcon_css_lookups. Qed.
End ThemeTheorems.

(** C22: [List]: an item of any list is spaced 12px from the previous one
    (0 for the first); the rules of a top-level list (24px between its
    items, 35px indentation of a nested [ul], 20px of a nested [ol]) are
    written exactly when [isTopLevel] is truthy. *)
Theorem List_css_spec (isTopLevel : option bool) :
  lookup_decl ["li"] "padding-top" (List_css isTopLevel) = Some "12px" /\
  lookup_decl ["li"; "&:first-child"] "padding-top" (List_css isTopLevel) = Some "0" /\
  lookup_decl ["> li"] "padding-top" (List_css isTopLevel) =
    (if truthy isTopLevel then Some "24px" else None) /\
  lookup_decl ["> li"; "> ul"] "padding-left" (List_css isTopLevel) =
    (if truthy isTopLevel then Some "35px" else None) /\
  lookup_decl ["> li"; "> ol"] "padding-left" (List_css isTopLevel) =
    (if truthy isTopLevel then Some "20px" else None).
Proof. destruct isTopLevel as [[]|]; split_and!; reflexivity. Qed.
