(* ===== verification/Render.v ===== *)
(** * Render: [Menu] and [TableOfContentsItems]

    Models lines 78-120 and 163-200 of [TableOfContentsItems.tsx].  The
    output of a render is the tree React mounts ([vnode]): host lists and
    list items, the two kinds of menu toggle with the [onClick] closure they
    carry, and the [ItemLink] / [BulletLink] elements with the props they
    receive (those two components live in sibling files that are not part
    of the sources; they are leaves here).  [Menu] and [TableOfContentsItems]
    call each other; in the model the list renderer is
    [TableOfContentsItems_with], parameterised by how a [Menu] element
    renders, and [Menu] is a structural fixpoint on the item that passes
    itself to it.  React throws when it mounts an element whose type is
    [null] (the [default] of [getItemComponent]): the render is a [result]
    whose error is [InvalidElementType].

    The callback [setMenuOpenStateById] is a function owned outside; the
    renderer never calls it, only stores it in closures.  Its type is the
    section variable [F]. *)

From S2P Require Import Prelude Items Styles.

Inductive ListTag : Type := ol | ul.

#[export] Instance ListTag_eq_dec : EqDecision ListTag.
Proof. solve_decision. Defined.

(** The argument of [setMenuOpenStateById]: [{ id, isOpen }]. *)
Record ToggleArgs : Type := mkToggleArgs { targ_id : string; targ_isOpen : bool }.

#[export] Instance ToggleArgs_eq_dec : EqDecision ToggleArgs.
Proof. solve_decision. Defined.

(** React's error when an element has no valid type. *)
Inductive RenderError : Type :=
| InvalidElementType (itemType : string).

Section Render.
Context {F : Type}.

(** The closure [toggleOpenState]: the callback it will call, if any, and
    the argument it will pass, both fixed when the [Menu] renders. *)
Record Handler : Type := mkHandler { h_callback : option F; h_args : ToggleArgs }.

(** The props [TableOfContentsItems] gives an [ItemLink] or a
    [BulletLink]: [currentPath], [item], [isTopLevel] and [...rest]. *)
Record LinkProps : Type := mkLinkProps {
  lp_currentPath : string;
  lp_item : Item;
  lp_isTopLevel : bool;
  lp_setMenuOpenStateById : option F
}.

(** The mounted tree.  A [VList] child is keyed by [key={item.title}]. *)
Local Unset Elimination Schemes.
Inductive vnode : Type :=
| VList (className : string) (isTopLevel : bool) (as_ : ListTag)
    (elems : list (string * vnode))
| VLi (toggle : vnode) (sub : option vnode)
| VTopLevelMenuToggle (attrs : LinkAttrs) (onClick : Handler)
    (arrow : ArrowIconProps) (label : string)
| VMenuLink (isButton : bool) (onClick : Handler) (label : string)
    (arrow : ArrowIconProps)
| VItemLink (props : LinkProps)
| VBulletLink (props : LinkProps)
| VNull.
Local Set Elimination Schemes.

(** The props of [TableOfContentsItems]. *)
Record TableOfContentsItemsProps : Type := mkProps {
  className : option string;
  currentPath : string;
  isTopLevel : option bool;
  items : list Item;
  setMenuOpenStateById : option F
}.

(** [TableOfContentsItems.defaultProps] and [Menu.defaultProps]. *)
Definition TableOfContentsItems_defaultClassName : string := "".
Definition Menu_defaultIsTopLevel : bool := false.

(** [items.every((item) => item.type === 'bullet-link')]. *)
Definition isOrderedList (l : list Item) : bool :=
  forallb (fun item => String.eqb (type item) "bullet-link") l.

(** [toggleOpenState] of [item]: [{ id: item.id, isOpen: !item.isOpen }]. *)
Definition toggleOpenState (cb : option F) (item : Item) : Handler :=
  mkHandler cb (mkToggleArgs (id item) (negb (truthy (isOpen item)))).

(** The element [items.map] builds for one item, mounted: the component
    of [getItemComponent], given [currentPath], [item], [isTopLevel] and
    [...rest]. *)
Definition renderItem (menu : bool -> Item -> result RenderError vnode)
    (cp : string) (top : bool) (cb : option F) (item : Item)
    : result RenderError vnode :=
  match getItemComponent (type item) with
  | Some CMenu => menu top item
  | Some CItemLink => Ok (VItemLink (mkLinkProps cp item top cb))
  | Some CBulletLink => Ok (VBulletLink (mkLinkProps cp item top cb))
  | None => Err (InvalidElementType (type item))
  end.

(** The body of [TableOfContentsItems], once its props are resolved. *)
Definition TableOfContentsItems_with (menu : bool -> Item -> result RenderError vnode)
    (cn cp : string) (top : bool) (l : list Item) (cb : option F)
    : result RenderError vnode :=
  els <- traverse (fun item =>
           el <- renderItem menu cp top cb item ;; Ok (title item, el)) l ;;
  Ok (VList cn top (if isOrderedList l then ol else ul) els).

(** The [ArrowIcon] element of a [Menu]:
    [<ArrowIcon isOpen={item.isOpen} isTopLevel={isTopLevel} aria-hidden />]. *)
Definition menuArrow (top : bool) (item : Item) : ArrowIconProps :=
  mkArrowIconProps (isOpen item) (Some top) ArrowIcon_icon true.

(** The toggle of a [Menu]: [TopLevelMenuToggle] with the arrow before the
    title at top level, [MenuLink isButton] with the arrow after it below;
    both with [onClick={toggleOpenState}]. *)
Definition menuToggle (top : bool) (cb : option F) (item : Item) : vnode :=
  if top
  then VTopLevelMenuToggle TopLevelMenuToggle_attrs (toggleOpenState cb item)
         (menuArrow top item) (title item)
  else VMenuLink true (toggleOpenState cb item) (title item) (menuArrow top item).

(** [Menu]: [null] without children; otherwise an [li] with the toggle
    and, when [item.isOpen], the children rendered by
    [TableOfContentsItems] with [isTopLevel] [false], the same callback
    and the same [currentPath] ([rest] is empty: [MenuProps] names every
    prop). *)
Fixpoint Menu (top : option bool) (item : Item) (cb : option F) (cp : string)
    {struct item} : result RenderError vnode :=
  let top := default Menu_defaultIsTopLevel top in
  match item with
  | mkItem _ _ _ None _ _ => Ok VNull
  | mkItem _ _ _ (Some cs) _ o =>
      if truthy o then
        sub <- TableOfContentsItems_with (fun top' c => Menu (Some top') c cb cp)
                 TableOfContentsItems_defaultClassName cp false cs cb ;;
        Ok (VLi (menuToggle top cb item) (Some sub))
      else Ok (VLi (menuToggle top cb item) None)
  end.

(** The [Menu] renderer as [TableOfContentsItems] uses it. *)
Definition menuOf (cb : option F) (cp : string) : bool -> Item -> result RenderError vnode :=
  fun top c => Menu (Some top) c cb cp.

(** [TableOfContentsItems], with [className] defaulting to [''] and
    [isTopLevel] to [false]. *)
Definition TableOfContentsItems (props : TableOfContentsItemsProps) : result RenderError vnode :=
  TableOfContentsItems_with (menuOf (setMenuOpenStateById props) (currentPath props))
    (default TableOfContentsItems_defaultClassName (className props))
    (currentPath props) (default false (isTopLevel props)) (items props)
    (setMenuOpenStateById props).
End Render.

Arguments vnode : clear implicits.
Arguments LinkProps : clear implicits.
Arguments Handler : clear implicits.
Arguments TableOfContentsItemsProps : clear implicits.

(** ** Lemmas on the list renderer *)

Section RenderFacts.
Context {F : Type}.
Implicit Types (cb : option F) (p : TableOfContentsItemsProps F).

Lemma isOrderedList_Forall (l : list Item) :
  isOrderedList l = true <-> Forall (fun x => type x = "bullet-link") l.
Proof.
  unfold isOrderedList. rewrite forallb_Forall_iff.
  split; apply Forall_impl; intros x; by rewrite String.eqb_eq.
Qed.

Lemma TableOfContentsItems_with_Ok menu cn cp top (l : list Item) cb v :
  TableOfContentsItems_with menu cn cp top l cb = Ok v <->
  exists els, v = VList cn top (if isOrderedList l then ol else ul) els /\
    Forall2 (fun x '(k, e) => k = title x /\ renderItem menu cp top cb x = Ok e) l els.
Proof.
  unfold TableOfContentsItems_with. rewrite bind_eq_Ok. split.
  - intros (els & Hels & [= <-]). exists els. split; [done |].
    apply traverse_Ok_iff in Hels. revert Hels; apply Forall2_impl.
    intros x [k e] H. apply bind_eq_Ok in H as (e' & He & [= -> ->]). done.
  - intros (els & -> & Hels). exists els. split; [| done].
    apply traverse_Ok_iff. revert Hels; apply Forall2_impl.
    intros x [k e] [-> ->]. done.
Qed.

(** The element a [Menu] item with children mounts, as a function of the
    render of its children. *)
Lemma Menu_unfold top (x : Item) cb cp cs :
  children x = Some cs ->
  Menu top x cb cp =
    if truthy (isOpen x) then
      sub <- TableOfContentsItems (mkProps None cp (Some false) cs cb) ;;
      Ok (VLi (menuToggle (default Menu_defaultIsTopLevel top) cb x) (Some sub))
    else Ok (VLi (menuToggle (default Menu_defaultIsTopLevel top) cb x) None).
Proof. destruct x as [t ty pa [cs'|] i o]; simpl; intros [= ->]; reflexivity. Qed.

(** C4: Whatever the children of a sibling list, [TableOfContentsItems]
    renders one list element, with the resolved [className] and
    [isTopLevel], and its tag is [ol] exactly when every item's [type] is
    ["bullet-link"]; the tag does not depend on the order of the items. *)
Theorem TableOfContentsItems_list_tag p v :
  TableOfContentsItems p = Ok v ->
  exists tag els,
    v = VList (default "" (className p)) (default false (isTopLevel p)) tag els /\
    (tag = ol <-> Forall (fun x => type x = "bullet-link") (items p)) /\
    (forall l', Permutation (items p) l' -> isOrderedList l' = true <-> tag = ol).
Proof.
  unfold TableOfContentsItems. intros (els & -> & _)%TableOfContentsItems_with_Ok.
  eexists _, els. split; [done |]. rewrite <- isOrderedList_Forall. split.
  - by destruct (isOrderedList (items p)).
  - intros l' Hp. unfold isOrderedList at 1. rewrite <- (forallb_Permutation _ _ _ Hp).
    fold (isOrderedList (items p)). by destruct (isOrderedList (items p)).
Qed.

(** C6: A [Menu] whose item has no [children] renders [null], whatever its
    [isOpen], its level, its callback and the current path. *)
Theorem Menu_no_children top (x : Item) cb cp :
  children x = None -> Menu top x cb cp = Ok VNull.
Proof. destruct x as [t ty pa [cs|] i o]; simpl; [discriminate | reflexivity]. Qed.

(** C17: An empty sibling list renders an empty list element, and it is an
    [ol]: [[].every(...)] is [true].  A [Menu] whose [children] is [[]] is
    therefore not [null]: it shows its toggle, and when open an empty
    ordered list. *)
Theorem TableOfContentsItems_empty p :
  items p = [] ->
  TableOfContentsItems p =
    Ok (VList (default "" (className p)) (default false (isTopLevel p)) ol []).
Proof. intros Hl. unfold TableOfContentsItems, TableOfContentsItems_with. rewrite Hl. reflexivity. Qed.

(** C18: The rendered children of a list are keyed by the items' titles, in
    order: sibling items with the same title get the same React key. *)
Theorem TableOfContentsItems_keys p cn top tag els :
  TableOfContentsItems p = Ok (VList cn top tag els) -> map fst els = map title (items p).
Proof.
  unfold TableOfContentsItems. intros (els' & Heq & Hels)%TableOfContentsItems_with_Ok.
  injection Heq as _ _ _ ->.
  induction Hels as [|x [k e] l els Hxe _ IH]; simpl; [done |].
  destruct Hxe as [-> _]. by rewrite IH.
Qed.

(** C7: Top-level and nested toggles.  A [Menu] with children renders an
    [li] whose toggle is the prominent [TopLevelMenuToggle] (a tertiary
    button, arrow before the title) exactly at top level and the inline
    [MenuLink] (arrow after the title) otherwise; its arrow carries its
    margin on the side of the title (right at top level, left below) and is
    rotated exactly when the item is open. *)
Theorem Menu_toggle_variant (color : string) top (x : Item) cb cp v :
  children x <> None -> Menu (Some top) x cb cp = Ok v ->
  exists a sub,
    (if top
     then v = VLi (VTopLevelMenuToggle (mkLinkAttrs true true) (toggleOpenState cb x) a (title x)) sub
     else v = VLi (VMenuLink true (toggleOpenState cb x) (title x) a) sub) /\
    lookup_decl ["&&"] "margin-right" (ArrowIcon_css color a) = (if top then Some "8px" else None) /\
    lookup_decl ["&&"] "margin-left" (ArrowIcon_css color a) = (if top then None else Some "8px") /\
    lookup_decl ["&&"] "transform" (ArrowIcon_css color a) =
      Some (if truthy (isOpen x) then "translateY(1px) rotate(90deg)" else "translateY(1px) ").
Proof.
  intros Hc Hv. destruct (children x) as [cs|] eqn:Ecs; [| done].
  rewrite (Menu_unfold _ _ _ _ _ Ecs) in Hv. simpl in Hv.
  destruct (ArrowIcon_css_lookups color (menuArrow top x)) as (Ht & Hr & Hl).
  cbn [ai_isOpen ai_isTopLevel menuArrow] in Ht, Hr, Hl. exists (menuArrow top x).
  destruct (truthy (isOpen x)) eqn:Eo.
  - apply bind_eq_Ok in Hv as (sub & _ & [= <-]). exists (Some sub).
    destruct top; split_and!; done.
  - injection Hv as <-. exists None. destruct top; split_and!; done.
Qed.
End RenderFacts.

(** ** The scenario of the specification *)

(** [[{title:"A", type:"link", path:"/a"},
      {title:"B", type:"menu", children:[{title:"C", type:"link", path:"/c"}]}]]
    with [B.isOpen] given. *)
Module Scenario.
Definition itemA : Item := mkItem "A" "link" (Some "/a") None "a" None.
Definition itemC : Item := mkItem "C" "link" (Some "/c") None "c" None.
Definition itemB (o : option bool) : Item := mkItem "B" "menu" None (Some [itemC]) "b" o.
(** A menu without [children], open. *)
Definition itemD : Item := mkItem "D" "menu" None None "d" (Some true).
Definition props (o : option bool) : TableOfContentsItemsProps unit :=
  mkProps None "/a" (Some true) [itemA; itemB o] (Some tt).
End Scenario.

Lemma TableOfContentsItems_list_tag_witness :
  exists v, TableOfContentsItems (Scenario.props (Some false)) = Ok v /\
  exists tag els, v = VList "" true tag els /\
    (tag = ol <-> Forall (fun x => type x = "bullet-link") (items (Scenario.props (Some false)))) /\
    (forall l', Permutation (items (Scenario.props (Some false))) l' ->
       isOrderedList l' = true <-> tag = ol).
Proof.
  eexists. split; [reflexivity |].
  apply (TableOfContentsItems_list_tag (Scenario.props (Some false))). reflexivity.
Defined.

Lemma Menu_no_children_witness :
  children Scenario.itemD = None /\ Menu (Some true) Scenario.itemD (Some tt) "/" = Ok VNull.
Proof. split; [reflexivity | apply Menu_no_children; reflexivity]. Defined.

Lemma TableOfContentsItems_empty_witness :
  items (mkProps (F := unit) None "/" (Some false) [] None) = [] /\
  TableOfContentsItems (mkProps (F := unit) None "/" (Some false) [] None) = Ok (VList "" false ol []).
Proof.
  split; [reflexivity |].
  apply (TableOfContentsItems_empty (mkProps None "/" (Some false) [] None)). reflexivity.
Defined.

Lemma TableOfContentsItems_keys_witness :
  exists els, TableOfContentsItems (Scenario.props (Some true)) = Ok (VList "" true ul els) /\
  map fst els = map title (items (Scenario.props (Some true))).
Proof.
  eexists. split; [reflexivity |].
  eapply (TableOfContentsItems_keys (Scenario.props (Some true))). reflexivity.
Defined.

Lemma Menu_toggle_variant_witness :
  exists v, children (Scenario.itemB (Some true)) <> None /\
  Menu (Some true) (Scenario.itemB (Some true)) (Some tt) "/a" = Ok v /\
  exists a sub,
    v = VLi (VTopLevelMenuToggle (mkLinkAttrs true true)
               (toggleOpenState (Some tt) (Scenario.itemB (Some true))) a "B") sub /\
    lookup_decl ["&&"] "margin-right" (ArrowIcon_css "#999" a) = Some "8px" /\
    lookup_decl ["&&"] "margin-left" (ArrowIcon_css "#999" a) = None /\
    lookup_decl ["&&"] "transform" (ArrowIcon_css "#999" a) = Some "translateY(1px) rotate(90deg)".
Proof.
  eexists. split; [discriminate |]. split; [reflexivity |].
  eapply (Menu_toggle_variant "#999" true (Scenario.itemB (Some true)) (Some tt) "/a");
    [discriminate | reflexivity].
Defined.
