(* ===== verification/Visible.v ===== *)
(** * Visible: what the renderer shows, and the refinement theorem

    The specification of [TableOfContentsItems] as a reader of the page
    sees it: the entries of the forest that are visible (a root, or a child
    of a visible menu that is open), in document order, each shown as a
    link, a bulleted link or a toggle carrying its [{id, isOpen}] request.
    [visible] is the abstract relation (rule induction), [reach] and
    [shown] its executable pre-order forms, and [entries] reads the same
    sequence off a mounted tree.  The theorems say that the renderer
    refines the specification: a render succeeds exactly when no visible
    item has an unknown tag, and then its entries are [shown]. *)

From S2P Require Import Prelude Items Styles Render.

(** ** The abstract specification *)

(** An item is visible when it is one of the roots, or a child of a
    visible [menu] item that has children and is open. *)
Inductive visible (roots : list Item) : Item -> Prop :=
| visible_root x :
    In x roots -> visible roots x
| visible_child m cs x :
    visible roots m -> getItemComponent (type m) = Some CMenu ->
    children m = Some cs -> truthy (isOpen m) = true -> In x cs ->
    visible roots x.

(** Whether the component of an item renders anything: a [Menu] without
    children renders [null]; an unknown tag renders nothing (it throws). *)
Definition shows (x : Item) : bool :=
  match getItemComponent (type x) with
  | Some CMenu => bool_decide (children x <> None)
  | Some _ => true
  | None => false
  end.

(** The children a visible item makes visible. *)
Definition opened (x : Item) : list Item :=
  match getItemComponent (type x), children x with
  | Some CMenu, Some cs => if truthy (isOpen x) then cs else []
  | _, _ => []
  end.

(** [x] and the items it makes visible, in document order. *)
Fixpoint reach (x : Item) : list Item :=
  x :: match x with
       | mkItem _ ty _ (Some cs) _ o =>
           if bool_decide (getItemComponent ty = Some CMenu) && truthy o
           then flat_map reach cs else []
       | _ => []
       end.

(** What is shown for [x] at level [top], in document order: the item
    with the level it is rendered at. *)
Fixpoint shown (top : bool) (x : Item) : list (Item * bool) :=
  match x with
  | mkItem _ ty _ cs _ o =>
      match getItemComponent ty, cs with
      | Some CMenu, None => []
      | Some CMenu, Some l => (x, top) :: (if truthy o then flat_map (shown false) l else [])
      | Some _, _ => [(x, top)]
      | None, _ => []
      end
  end.

(** ** Reading the mounted tree *)

Section Entries.
Context {F : Type}.

(** What one visible entry shows: a toggle (its variant, label and click
    handler), an [ItemLink] or a [BulletLink] with its props. *)
Inductive Entry : Type :=
| EToggle (top : bool) (label : string) (h : Handler F)
| ELink (p : LinkProps F)
| EBullet (p : LinkProps F).

(** The entries of a mounted tree, in document order. *)
Fixpoint entries (v : vnode F) : list Entry :=
  match v with
  | VList _ _ _ els =>
      (fix go (l : list (string * vnode F)) : list Entry :=
         match l with [] => [] | (_, e) :: l' => entries e ++ go l' end) els
  | VLi t sub => entries t ++ match sub with Some s => entries s | None => [] end
  | VTopLevelMenuToggle _ h _ label => [EToggle true label h]
  | VMenuLink _ h label _ => [EToggle false label h]
  | VItemLink p => [ELink p]
  | VBulletLink p => [EBullet p]
  | VNull => []
  end.

(** The entry the specification expects for a shown item. *)
Definition entry_of (cb : option F) (cp : string) (xt : Item * bool) : Entry :=
  let '(x, top) := xt in
  match getItemComponent (type x) with
  | Some CItemLink => ELink (mkLinkProps cp x top cb)
  | Some CBulletLink => EBullet (mkLinkProps cp x top cb)
  | _ => EToggle top (title x) (toggleOpenState cb x)
  end.
End Entries.

(** ** Unfolding the specification *)

Lemma reach_unfold (x : Item) : reach x = x :: flat_map reach (opened x).
Proof.
  destruct x as [t ty pa [cs|] i o]; unfold opened; simpl; [| by destruct (getItemComponent ty) as [[]|]].
  destruct (getItemComponent ty) as [[]|]; simpl; [by destruct (truthy o) | done ..].
Qed.

Lemma shown_unfold (top : bool) (x : Item) :
  shown top x = if shows x then (x, top) :: flat_map (shown false) (opened x) else [].
Proof.
  destruct x as [t ty pa [cs|] i o]; unfold shows, opened; simpl;
    destruct (getItemComponent ty) as [[]|]; simpl; try done.
  by destruct (truthy o).
Qed.

Lemma opened_children (x c : Item) :
  In c (opened x) -> exists cs, children x = Some cs /\ In c cs.
Proof.
  unfold opened. destruct_tag x; destruct (children x) as [cs|];
    try contradiction. destruct (truthy (isOpen x)); [eauto | contradiction].
Qed.

(** Induction along [opened]: what holds of an item when it holds of the
    children it opens holds of every item. *)
Lemma opened_ind (P : Item -> Prop) :
  (forall x, (forall c, In c (opened x) -> P c) -> P x) -> forall x, P x.
Proof.
  intros H x. induction x as [t ty pa cs i o IH] using Item_ind. apply H.
  intros c (cs' & Hcs & Hc)%opened_children. simpl in Hcs; subst cs.
  simpl in IH. rewrite Forall_forall in IH. by apply IH.
Qed.

Lemma opened_In (m : Item) cs x :
  getItemComponent (type m) = Some CMenu -> children m = Some cs ->
  truthy (isOpen m) = true -> In x cs -> In x (opened m).
Proof. intros Hm Hc Ho Hx. unfold opened. by rewrite Hm, Hc, Ho. Qed.

Lemma opened_visible roots (m x : Item) :
  visible roots m -> In x (opened m) -> visible roots x.
Proof.
  intros Hm Hx. unfold opened in Hx.
  destruct_tag m eqn:Ec; destruct (children m) as [cs|] eqn:Ech;
    try contradiction.
  destruct (truthy (isOpen m)) eqn:Eo; [| contradiction].
  by apply (visible_child roots m cs x).
Qed.

#[export] Hint Resolve opened_In opened_visible visible_root : toc.

(** ** The renderer against the specification *)

Section Refinement.
Context {F : Type} (cb : option F) (cp : string).

Lemma entries_VList cn top tag (els : list (string * vnode F)) :
  entries (VList cn top tag els) = flat_map (fun ke => entries ke.2) els.
Proof. induction els as [|[k e] els IH]; simpl in *; [done |]. by rewrite IH. Qed.

Lemma entries_VLi (t : vnode F) sub :
  entries (VLi t sub) = entries t ++ from_option entries [] sub.
Proof. by destruct sub. Qed.

Lemma entries_menuToggle top (x : Item) :
  entries (menuToggle top cb x) = [EToggle top (title x) (toggleOpenState cb x)].
Proof. by destruct top. Qed.

(** The item-level statement the list-level theorems are built from. *)
Definition renders_shown (x : Item) : Prop :=
  forall top v, renderItem (menuOf cb cp) cp top cb x = Ok v ->
    entries v = map (entry_of cb cp) (shown top x).

Lemma render_list_entries top (l : list Item) (els : list (string * vnode F)) :
  Forall2 (fun x '(k, e) => k = title x /\ renderItem (menuOf cb cp) cp top cb x = Ok e) l els ->
  (forall c, In c l -> renders_shown c) ->
  flat_map (fun ke => entries ke.2) els = map (entry_of cb cp) (flat_map (shown top) l).
Proof.
  induction 1 as [|x [k e] l els [_ He] _ IH]; intros Hl; simpl; [done |].
  rewrite map_app, (Hl x (or_introl eq_refl) top e He), IH; [done |].
  intros c Hc. apply Hl. by right.
Qed.

Lemma renderItem_shown (x : Item) : renders_shown x.
Proof.
  induction x as [x IH] using opened_ind. intros top v H.
  unfold renderItem in H. rewrite shown_unfold. unfold shows.
  destruct_tag x eqn:Ec; [| | | discriminate].
  - unfold menuOf in H. destruct (children x) as [cs|] eqn:Ech.
    2:{ rewrite Menu_no_children in H by done. by injection H as <-. }
    rewrite (Menu_unfold _ _ _ _ _ Ech) in H. rewrite bool_decide_eq_true_2 by congruence.
    unfold opened. rewrite Ec, Ech.
    destruct (truthy (isOpen x)) eqn:Eo.
    2:{ injection H as <-. rewrite entries_VLi, entries_menuToggle. simpl. by rewrite Ec. }
    apply bind_eq_Ok in H as (sub & Hsub & [= <-]).
    unfold TableOfContentsItems in Hsub.
    cbn [className currentPath isTopLevel items setMenuOpenStateById default] in Hsub.
    apply TableOfContentsItems_with_Ok in Hsub as (els & -> & Hels).
    rewrite entries_VLi, entries_menuToggle. cbn [from_option]. rewrite entries_VList.
    simpl. rewrite Ec. f_equal.
    apply (render_list_entries false cs els Hels).
    intros c Hc. apply IH. by apply (opened_In x cs).
  - injection H as <-. cbn [entries map]. unfold entry_of, opened. by rewrite Ec.
  - injection H as <-. cbn [entries map]. unfold entry_of, opened. by rewrite Ec.
Qed.
End Refinement.

(** Whether [getItemComponent] knows the tag of an item. *)
Definition known (x : Item) : bool :=
  if getItemComponent (type x) is Some _ then true else false.

Lemma opened_not_shows (x : Item) : shows x = false -> opened x = [].
Proof.
  unfold shows, opened. by destruct_tag x; destruct (children x).
Qed.

Section Ok.
Context {F : Type} (cb : option F) (cp : string).

Lemma renderItem_ok (x : Item) : forall top,
  is_ok (renderItem (menuOf cb cp) cp top cb x) = forallb known (reach x).
Proof.
  induction x as [x IH] using opened_ind. intros top.
  rewrite reach_unfold. simpl. unfold renderItem, known, opened in *.
  destruct_tag x eqn:Ec; try done.
  unfold menuOf. destruct (children x) as [cs|] eqn:Ech; [| by rewrite Menu_no_children].
  rewrite (Menu_unfold _ _ _ _ _ Ech). destruct (truthy (isOpen x)); [| done].
  rewrite is_ok_bind_Ok. unfold TableOfContentsItems, TableOfContentsItems_with.
  cbn [className currentPath isTopLevel items setMenuOpenStateById default].
  rewrite is_ok_bind_Ok, traverse_is_ok, forallb_flat_map.
  apply forallb_ext_in. intros c Hc. rewrite is_ok_bind_Ok. by apply IH.
Qed.
End Ok.

(** ** The executable pre-order against the abstract relation *)

Lemma reach_self (x : Item) : In x (reach x).
Proof. rewrite reach_unfold. by left. Qed.

Lemma reach_opened (y m x : Item) :
  In m (reach y) -> In x (opened m) -> In x (reach y).
Proof.
  revert m x. induction y as [y IH] using opened_ind. intros m x Hm Hx.
  rewrite reach_unfold in Hm |- *. right. apply in_flat_map.
  destruct Hm as [<- | (c & Hc & Hm)%in_flat_map].
  - exists x. split; [done | apply reach_self].
  - exists c. split; [done |]. by apply (IH c Hc m).
Qed.

Lemma reach_visible_from roots (y x : Item) :
  visible roots y -> In x (reach y) -> visible roots x.
Proof.
  revert x. induction y as [y IH] using opened_ind. intros x Hy Hx.
  rewrite reach_unfold in Hx. destruct Hx as [<- | (c & Hc & Hx)%in_flat_map]; [done |].
  apply (IH c Hc); [eauto with toc | done].
Qed.

Lemma visible_reach roots (x : Item) :
  visible roots x <-> In x (flat_map reach roots).
Proof.
  split.
  - induction 1 as [x Hx | m cs x _ IH Hm Hc Ho Hx].
    + apply in_flat_map. exists x. split; [done | apply reach_self].
    + apply in_flat_map in IH as (r & Hr & Hm').
      apply in_flat_map. exists r. split; [done |].
      apply (reach_opened r m x Hm'). by apply (opened_In m cs).
  - intros (r & Hr & Hx)%in_flat_map. by apply (reach_visible_from roots r x); [constructor |].
Qed.

Lemma shown_reach (top : bool) (y x : Item) :
  In x (map fst (shown top y)) <-> In x (reach y) /\ shows x = true.
Proof.
  revert top x. induction y as [y IH] using opened_ind. intros top x.
  rewrite shown_unfold, reach_unfold.
  destruct (shows y) eqn:Ey.
  - simpl. rewrite map_flat_map_fst. split.
    + intros [<- | (c & Hc & Hx)%in_flat_map]; [split; [by left | done] |].
      apply IH in Hx as [Hx Hs]; [| done].
      split; [right; apply in_flat_map; by exists c | done].
    + intros [[<- | (c & Hc & Hx)%in_flat_map] Hs]; [by left |].
      right. apply in_flat_map. exists c. split; [done |]. by apply IH.
  - rewrite opened_not_shows by done. simpl. split; [done |].
    intros [[<- | []] Hs]. congruence.
Qed.

Lemma shown_level (top : bool) (y x : Item) :
  In (x, true) (shown top y) -> top = true /\ x = y.
Proof.
  revert top. induction y as [y IH] using opened_ind. intros top.
  rewrite shown_unfold. destruct (shows y); [| done].
  intros [[= -> ->] | (c & Hc & Hx)%in_flat_map]; [done |].
  by destruct (IH c Hc false Hx).
Qed.

Lemma entry_of_toggle {F} (cb : option F) cp (xt : Item * bool) top l h :
  entry_of cb cp xt = EToggle top l h -> top = xt.2 /\ l = title xt.1 /\ h = toggleOpenState cb xt.1.
Proof.
  destruct xt as [x b]. unfold entry_of.
  destruct_tag x; intros [=]; by subst.
Qed.

(** ** The list-level statements the theorems and their clients share *)

Lemma TableOfContentsItems_entries {F} (p : TableOfContentsItemsProps F) v :
  TableOfContentsItems p = Ok v ->
  entries v = map (entry_of (setMenuOpenStateById p) (currentPath p))
                  (flat_map (shown (default false (isTopLevel p))) (items p)).
Proof.
  unfold TableOfContentsItems. intros (els & -> & Hels)%TableOfContentsItems_with_Ok.
  rewrite entries_VList. apply (render_list_entries _ _ _ _ _ Hels).
  intros c _. apply renderItem_shown.
Qed.

Lemma shown_visible_iff (top : bool) (l : list Item) (x : Item) :
  In x (map fst (flat_map (shown top) l)) <-> visible l x /\ shows x = true.
Proof.
  rewrite map_flat_map_fst, visible_reach, !in_flat_map. split.
  - intros (r & Hr & Hx). apply shown_reach in Hx as [Hx Hs]. split; [by exists r | done].
  - intros [(r & Hr & Hx) Hs]. exists r. split; [done |]. by apply shown_reach.
Qed.

Lemma TableOfContentsItems_is_ok {F} (p : TableOfContentsItemsProps F) :
  is_ok (TableOfContentsItems p) = forallb known (flat_map reach (items p)).
Proof.
  unfold TableOfContentsItems, TableOfContentsItems_with.
  rewrite is_ok_bind_Ok, traverse_is_ok, forallb_flat_map.
  apply forallb_ext_in. intros c _. rewrite is_ok_bind_Ok. apply renderItem_ok.
Qed.

(** The toggle of every shown menu is in the rendered tree. *)
Lemma shown_toggle_entry {F} (p : TableOfContentsItemsProps F) v x t :
  TableOfContentsItems p = Ok v ->
  In (x, t) (flat_map (shown (default false (isTopLevel p))) (items p)) ->
  getItemComponent (type x) = Some CMenu ->
  In (EToggle t (title x) (toggleOpenState (setMenuOpenStateById p) x)) (entries v).
Proof.
  intros Hv Hx Hm. rewrite (TableOfContentsItems_entries p v Hv). apply in_map_iff.
  exists (x, t). split; [| done]. unfold entry_of. by rewrite Hm.
Qed.

(** A toggle in a rendered tree is the toggle of a shown item. *)
Lemma toggle_entry_shown {F} (p : TableOfContentsItemsProps F) v t l h :
  TableOfContentsItems p = Ok v -> In (EToggle t l h) (entries v) ->
  exists x, In (x, t) (flat_map (shown (default false (isTopLevel p))) (items p)) /\
    getItemComponent (type x) = Some CMenu /\
    l = title x /\ h = toggleOpenState (setMenuOpenStateById p) x.
Proof.
  intros Hv Hin. rewrite (TableOfContentsItems_entries p v Hv) in Hin.
  apply in_map_iff in Hin as ([x b] & He & Hx). pose proof He as He'.
  apply entry_of_toggle in He' as (Hb & -> & ->). simpl in Hb; subst b.
  exists x. split; [done |]. split; [| done].
  destruct (proj1 (shown_visible_iff (default false (isTopLevel p)) (items p) x)) as [_ Hs];
    [apply in_map_iff; by exists (x, t) |].
  revert He Hs. unfold entry_of, shows. by destruct_tag x.
Qed.

(** ** The theorems *)

Section Theorems.
Context {F : Type}.
Implicit Types (p : TableOfContentsItemsProps F).

(** C1: Refinement.  When [TableOfContentsItems] renders, the entries of the
    mounted tree, in document order, are exactly the specification's
    [shown] items of the forest: every visible link and bulleted link with
    the props it is given, every visible menu that has children as a toggle
    of its level whose click handler carries [{id, isOpen: !isOpen}], and
    nothing else. *)
Theorem TableOfContentsItems_refines p v :
  TableOfContentsItems p = Ok v ->
  entries v = map (entry_of (setMenuOpenStateById p) (currentPath p))
                  (flat_map (shown (default false (isTopLevel p))) (items p)).
Proof. apply TableOfContentsItems_entries. Qed.

(** C2: Errors.  [TableOfContentsItems] throws exactly when some visible
    item has a tag [getItemComponent] does not know: an unknown tag under a
    closed menu is harmless, one that is visible aborts the whole render. *)
Theorem TableOfContentsItems_ok_iff p :
  is_ok (TableOfContentsItems p) = true <->
  forall x, visible (items p) x -> getItemComponent (type x) <> None.
Proof.
  rewrite TableOfContentsItems_is_ok, forallb_forall. setoid_rewrite <- visible_reach.
  unfold known. split; intros H x Hx; specialize (H x Hx);
    destruct (getItemComponent (type x)); naive_solver.
Qed.

(** C8: Levels.  In a rendered tree, a toggle of the top-level variant is
    only ever the toggle of a root item of a top-level list: every menu
    below an opened menu gets the inline variant, because [Menu] renders
    its children with [isTopLevel={false}]. *)
Theorem TableOfContentsItems_toplevel_toggles p v label h :
  TableOfContentsItems p = Ok v -> In (EToggle true label h) (entries v) ->
  default false (isTopLevel p) = true /\
  exists x, In x (items p) /\ label = title x /\ h = toggleOpenState (setMenuOpenStateById p) x.
Proof.
  intros Hv Hin. destruct (toggle_entry_shown p v true label h Hv Hin) as (x & Hx & _ & -> & ->).
  apply in_flat_map in Hx as (r & Hr & Hx). apply shown_level in Hx as [-> ->].
  split; [done |]. by exists r.
Qed.

(** C15: Threading.  Every link and bulleted link of a rendered tree, at any
    depth, receives the [currentPath] and the [setMenuOpenStateById] given
    to the top-level [TableOfContentsItems], and every toggle's closure
    calls that same callback: [Menu] passes both through unchanged. *)
Theorem TableOfContentsItems_threads p v :
  TableOfContentsItems p = Ok v ->
  forall e, In e (entries v) ->
    match e with
    | ELink lp | EBullet lp =>
        lp_currentPath lp = currentPath p /\ lp_setMenuOpenStateById lp = setMenuOpenStateById p
    | EToggle _ _ h => h_callback h = setMenuOpenStateById p
    end.
Proof.
  intros Hv e He. rewrite (TableOfContentsItems_entries p v Hv) in He.
  apply in_map_iff in He as ([x t] & <- & _). unfold entry_of. by destruct_tag x.
Qed.
End Theorems.

(** ** The scenario of the specification, end to end *)

Lemma TableOfContentsItems_refines_witness :
  exists v, TableOfContentsItems (Scenario.props (Some true)) = Ok v /\
  entries v = map (entry_of (Some tt) "/a") (flat_map (shown true) (items (Scenario.props (Some true)))).
Proof.
  eexists. split; [reflexivity |].
  apply (TableOfContentsItems_refines (Scenario.props (Some true))). reflexivity.
Defined.

Lemma TableOfContentsItems_threads_witness :
  exists v, TableOfContentsItems (Scenario.props (Some true)) = Ok v /\
  forall e, In e (entries v) ->
    match e with
    | ELink lp | EBullet lp => lp_currentPath lp = "/a" /\ lp_setMenuOpenStateById lp = Some tt
    | EToggle _ _ h => h_callback h = Some tt
    end.
Proof.
  eexists. split; [reflexivity |].
  apply (TableOfContentsItems_threads (Scenario.props (Some true))). reflexivity.
Defined.

Lemma TableOfContentsItems_toplevel_toggles_witness :
  exists v, TableOfContentsItems (Scenario.props (Some false)) = Ok v /\
  In (EToggle true "B" (toggleOpenState (Some tt) (Scenario.itemB (Some false)))) (entries v) /\
  (default false (isTopLevel (Scenario.props (Some false))) = true /\
   exists x, In x (items (Scenario.props (Some false))) /\ "B" = title x /\
     toggleOpenState (Some tt) (Scenario.itemB (Some false)) = toggleOpenState (Some tt) x).
Proof.
  eexists. split; [reflexivity |]. split; [simpl; right; left; reflexivity |].
  eapply (TableOfContentsItems_toplevel_toggles (Scenario.props (Some false))); [reflexivity |].
  simpl. right. left. reflexivity.
Defined.
