(* ===== verification/Markup.v ===== *)
(** * Markup: the shape of what is mounted

    The type of a successful render: the mounted tree is list markup.  A
    list ([ol] or [ul]) holds only [li]s ([Menu] renders an [li] or
    [null]) and [ItemLink] / [BulletLink] elements; an [li] holds one toggle
    and, when the menu is open, one nested list; a nested list is never a
    top-level list and has the default [className].  This is what the CSS
    of [List] (lines 122-161) relies on: its top-level rules select
    [> li > ul] and [> li > ol]. *)

From S2P Require Import Prelude Items Styles Render Visible.

Section Markup.
Context {F : Type}.

Definition is_toggle (v : vnode F) : bool :=
  match v with VTopLevelMenuToggle _ _ _ _ | VMenuLink _ _ _ _ => true | _ => false end.

(** What a list may hold directly. *)
Definition is_list_child (v : vnode F) : bool :=
  match v with VLi _ _ | VNull | VItemLink _ | VBulletLink _ => true | _ => false end.

(** A nested list: not top-level, default [className]. *)
Definition is_nested_list (v : vnode F) : bool :=
  match v with VList cn top _ _ => String.eqb cn "" && negb top | _ => false end.

(** Well-formed markup, recursively. *)
Fixpoint wf_markup (v : vnode F) : bool :=
  match v with
  | VList _ _ _ els =>
      (fix go (l : list (string * vnode F)) : bool :=
         match l with
         | [] => true
         | (_, e) :: l' => is_list_child e && wf_markup e && go l'
         end) els
  | VLi t sub =>
      is_toggle t && match sub with None => true | Some s => is_nested_list s && wf_markup s end
  | _ => true
  end.

Lemma wf_markup_VList cn top tag (els : list (string * vnode F)) :
  wf_markup (VList cn top tag els) = forallb (fun ke => is_list_child ke.2 && wf_markup ke.2) els.
Proof. induction els as [|[k e] els IH]; simpl in *; [done |]. by rewrite IH. Qed.

Lemma wf_markup_VLi (t : vnode F) sub :
  wf_markup (VLi t sub) = is_toggle t && from_option (fun s => is_nested_list s && wf_markup s) true sub.
Proof. by destruct sub. Qed.

Lemma is_toggle_menuToggle top cb (x : Item) : is_toggle (menuToggle top cb x) = true.
Proof. by destruct top. Qed.

Lemma renderItem_markup cb cp (x : Item) : forall top v,
  renderItem (menuOf cb cp) cp top cb x = Ok v -> is_list_child v && wf_markup v = true.
Proof.
  induction x as [x IH] using opened_ind. intros top v H. unfold renderItem in H.
  destruct_tag x eqn:Ec; [| by injection H as <- .. | discriminate].
  unfold menuOf in H. destruct (children x) as [cs|] eqn:Ecs.
  2:{ rewrite Menu_no_children in H by done. by injection H as <-. }
  rewrite (Menu_unfold _ _ _ _ _ Ecs) in H. destruct (truthy (isOpen x)) eqn:Eo.
  2:{ injection H as <-. simpl. by rewrite is_toggle_menuToggle. }
  apply bind_eq_Ok in H as (sub & Hsub & [= <-]).
  unfold TableOfContentsItems in Hsub.
  cbn [className currentPath isTopLevel items setMenuOpenStateById default] in Hsub.
  apply TableOfContentsItems_with_Ok in Hsub as (els & -> & Hels).
  cbn [is_list_child andb]. rewrite wf_markup_VLi, is_toggle_menuToggle.
  cbn [from_option is_nested_list andb negb]. rewrite wf_markup_VList. apply forallb_forall.
  intros [k e] Hke. destruct (Forall2_In_r _ _ _ _ Hels Hke) as (c & Hc & _ & He).
  exact (IH c (opened_In x cs c Ec Ecs Eo Hc) false e He).
Qed.
End Markup.

(** C5: Type of the output.  A successful render of [TableOfContentsItems]
    is a list element whose children are [li]s, [null]s, [ItemLink]s and
    [BulletLink]s, each [li] holding one toggle and at most one nested list,
    every nested list not top-level and with the default [className],
    recursively. *)
Theorem TableOfContentsItems_markup {F} (p : TableOfContentsItemsProps F) v :
  TableOfContentsItems p = Ok v ->
  (exists cn top tag els, v = VList cn top tag els) /\ wf_markup v = true.
Proof.
  unfold TableOfContentsItems. intros (els & -> & Hels)%TableOfContentsItems_with_Ok.
  split; [by do 4 eexists |]. rewrite wf_markup_VList. apply forallb_forall.
  intros [k e] Hke. destruct (Forall2_In_r _ _ _ _ Hels Hke) as (c & _ & _ & He).
  exact (renderItem_markup _ _ c _ e He).
Qed.

Lemma TableOfContentsItems_markup_witness :
  exists v, TableOfContentsItems (Scenario.props (Some true)) = Ok v /\
  (exists cn top tag els, v = VList cn top tag els) /\ wf_markup v = true.
Proof.
  eexists. split; [reflexivity |].
  apply (TableOfContentsItems_markup (Scenario.props (Some true))). reflexivity.
Defined.
