(* ===== verification/Interaction.v ===== *)
(** * Interaction: clicks, the open-state owner and the click/re-render loop

    [Menu] puts [onClick={toggleOpenState}] on every toggle; a click calls
    [setMenuOpenStateById({ id: item.id, isOpen: !item.isOpen })] with the
    values captured when the toggle was rendered.  The owner of the state is
    outside the sources (it is the component that renders the table of
    contents); what it must do is stated by the specification: set the flag
    of the item whose id matches and re-render.  This file states that
    contract as a class [MenuStateOwner] with its law, gives the two
    implementations the specification describes (the flag kept in the tree,
    and a map from id to boolean as its design notes propose) and proves
    the law for both, then defines a click and the step relation of the
    click/re-render loop over any lawful owner. *)

From stdpp Require Import gmap.
From S2P Require Import Prelude Items Styles Render Visible.

(** ** The update the owner performs, and what it preserves *)

(** Set [isOpen] to [b] on every item of the tree whose [id] is [i]. *)
Fixpoint set_open_by_id (i : string) (b : bool) (x : Item) : Item :=
  match x with
  | mkItem t ty p cs j o =>
      mkItem t ty p (option_map (map (set_open_by_id i b)) cs) j
        (if String.eqb j i then Some b else o)
  end.

(** The tree without its state: every [isOpen] erased. *)
Fixpoint shape (x : Item) : Item :=
  match x with
  | mkItem t ty p cs j _ => mkItem t ty p (option_map (map shape) cs) j None
  end.

(** Every node of a tree, open or not, in document order. *)
Fixpoint all_nodes (x : Item) : list Item :=
  x :: match x with
       | mkItem _ _ _ (Some cs) _ _ => flat_map all_nodes cs
       | _ => []
       end.

(** The id and the flag of every node. *)
Definition flags (l : list Item) : list (string * option bool) :=
  map (fun y => (id y, isOpen y)) (flat_map all_nodes l).

(** The ids of every node of a forest. *)
Definition tree_ids (l : list Item) : list string := map id (flat_map all_nodes l).

Lemma map_ext_Forall {A B} (f g : A -> B) (l : list A) :
  Forall (fun a => f a = g a) l -> map f l = map g l.
Proof. induction 1; simpl; congruence. Qed.

(** The update does not change the shape of a tree. *)
Lemma shape_set_open_by_id i b (x : Item) : shape (set_open_by_id i b x) = shape x.
Proof.
  induction x as [t ty p cs j o IH] using Item_ind.
  destruct cs as [cs|]; simpl in *; [| done].
  rewrite map_map. by rewrite (map_ext_Forall _ _ _ IH).
Qed.

(** The update sets the flag of the nodes with id [i] and of no other. *)
Lemma flags_set_open_by_id i b (x : Item) :
  map (fun y => (id y, isOpen y)) (all_nodes (set_open_by_id i b x)) =
  map (fun y => (id y, if String.eqb (id y) i then Some b else isOpen y)) (all_nodes x).
Proof.
  induction x as [t ty p cs j o IH] using Item_ind.
  destruct cs as [cs|]; simpl in *; [| done]. f_equal.
  rewrite !flat_map_concat_map, !concat_map, !map_map. f_equal.
  by apply map_ext_Forall.
Qed.

(** ** The owner of the open state: interface and implementations *)

(** What the rest of the page provides: the forest it renders, with the
    flags, and the function it passes as [setMenuOpenStateById]. *)
Class MenuStateOwner (S : Type) := {
  owner_items : S -> list Item;
  owner_set : ToggleArgs -> S -> S
}.

(** Its contract: [setMenuOpenStateById({id, isOpen})] sets the flag of
    the items with that [id] to [isOpen] and leaves everything else as it
    was. *)
Class MenuStateOwnerLaws (S : Type) `{!MenuStateOwner S} := {
  owner_set_spec a s :
    owner_items (owner_set a s) = map (set_open_by_id (targ_id a) (targ_isOpen a)) (owner_items s)
}.

(** The flag kept in the tree itself. *)
#[export] Instance TreeOwner : MenuStateOwner (list Item) := {
  owner_items l := l;
  owner_set a l := map (set_open_by_id (targ_id a) (targ_isOpen a)) l
}.

#[export] Instance TreeOwner_laws : MenuStateOwnerLaws (list Item).
Proof. by constructor. Qed.

(** The flags kept in a map from id to boolean beside the stateless tree
    (the design notes' "mapping from id to boolean, owned by a single
    controller"): an id the map does not hold is closed ([undefined]). *)
Fixpoint decorate (m : gmap string bool) (x : Item) : Item :=
  match x with
  | mkItem t ty p cs j _ => mkItem t ty p (option_map (map (decorate m)) cs) j (m !! j)
  end.

Record MapState : Type := mkMapState { ms_tree : list Item; ms_open : gmap string bool }.

#[export] Instance MapOwner : MenuStateOwner MapState := {
  owner_items s := map (decorate (ms_open s)) (ms_tree s);
  owner_set a s := mkMapState (ms_tree s) (<[targ_id a := targ_isOpen a]> (ms_open s))
}.

Lemma decorate_insert m i b (x : Item) :
  decorate (<[i := b]> m) x = set_open_by_id i b (decorate m x).
Proof.
  induction x as [t ty p cs j o IH] using Item_ind. simpl.
  assert (Hj : <[i:=b]> m !! j = if String.eqb j i then Some b else m !! j).
  { destruct (String.eqb_spec j i) as [-> | Hne]; [apply lookup_insert_eq |].
    by apply lookup_insert_ne. }
  rewrite Hj. destruct cs as [cs|]; simpl in *; [| done].
  rewrite map_map. by rewrite (map_ext_Forall _ _ _ IH).
Qed.

(** The map-based owner is lawful. *)
#[export] Instance MapOwner_laws : MenuStateOwnerLaws MapState.
Proof.
  constructor. intros a [tree m]. simpl. rewrite map_map.
  apply map_ext. intros x. apply decorate_insert.
Qed.

(** ** Clicking a toggle *)

(** Calling [setMenuOpenStateById] when the prop was not given throws a
    [TypeError]: [undefined] is not a function. *)
Inductive ClickError : Type :=
| NotAFunction.

(** A click on a toggle: the closure calls the callback it captured with
    the argument it captured. *)
Definition click {S} (h : Handler (ToggleArgs -> S -> S)) (s : S) : result ClickError S :=
  match h_callback h with
  | Some f => Ok (f (h_args h) s)
  | None => Err NotAFunction
  end.

Section Loop.
Context {S : Type} `{MenuStateOwnerLaws S}.
Variable (cp : string) (top : option bool).

(** What the owner renders: its forest, with [owner_set] as the callback. *)
Definition render_state (s : S) : result RenderError (vnode (ToggleArgs -> S -> S)) :=
  TableOfContentsItems (mkProps None cp top (owner_items s) (Some owner_set)).

(** One turn of the loop: a toggle of the current render is clicked and
    the owner updates its state (the next render is of the new state). *)
Inductive step : S -> S -> Prop :=
| step_click s v t l h s' :
    render_state s = Ok v -> In (EToggle t l h) (entries v) -> click h s = Ok s' ->
    step s s'.

Lemma click_rendered s v t l h :
  render_state s = Ok v -> In (EToggle t l h) (entries v) ->
  exists x, visible (owner_items s) x /\ shows x = true /\
    click h s = Ok (owner_set (mkToggleArgs (id x) (negb (truthy (isOpen x)))) s).
Proof.
  intros Hv Hin. destruct (toggle_entry_shown _ v t l h Hv Hin) as (x & Hx & _ & _ & ->).
  assert (Hx' : In x (map fst (flat_map (shown (default false top)) (owner_items s)))).
  { apply in_map_iff. by exists (x, t). }
  apply shown_visible_iff in Hx' as [Hvis Hs]. by exists x.
Qed.

End Loop.

Lemma flags_map_set i b (l : list Item) :
  flags (map (set_open_by_id i b) l) =
  map (fun '(j, o) => (j, if String.eqb j i then Some b else o)) (flags l).
Proof.
  induction l as [|x l IH]; [done |]. unfold flags in *. simpl.
  rewrite !map_app, IH, flags_set_open_by_id, map_map. f_equal. by rewrite map_map.
Qed.

(** ** The theorems of the loop *)

Section LoopTheorems.
Context {S : Type} `{MenuStateOwnerLaws S}.
Variable (cp : string) (top : option bool).

(** C3: A click on any toggle of a render of the owner's state is the click
    on the toggle of a visible [menu] item [x]; it sets the flag of the
    nodes with [x]'s id to [!x.isOpen] and leaves every other node's flag
    and the shape of the forest unchanged. *)
Theorem click_toggles_menu s v t l h :
  render_state cp top s = Ok v -> In (EToggle t l h) (entries v) ->
  exists x s', visible (owner_items s) x /\ getItemComponent (type x) = Some CMenu /\
    click h s = Ok s' /\
    flags (owner_items s') =
      map (fun '(j, o) => (j, if String.eqb j (id x) then Some (negb (truthy (isOpen x))) else o))
          (flags (owner_items s)) /\
    map shape (owner_items s') = map shape (owner_items s).
Proof.
  intros Hv Hin. destruct (toggle_entry_shown _ v t l h Hv Hin) as (x & Hx & Hm & _ & ->).
  assert (Hx' : In x (map fst (flat_map (shown (default false top)) (owner_items s)))).
  { apply in_map_iff. by exists (x, t). }
  apply shown_visible_iff in Hx' as [Hvis _].
  exists x, (owner_set (mkToggleArgs (id x) (negb (truthy (isOpen x)))) s).
  split; [done |]. split; [done |]. split; [done |].
  rewrite owner_set_spec. split; [apply flags_map_set |].
  rewrite map_map. apply map_ext. intros y. apply shape_set_open_by_id.
Qed.
End LoopTheorems.

Section LoopTheorems2.
Context {S : Type} `{MenuStateOwnerLaws S}.
Variable (cp : string) (top : option bool).

End LoopTheorems2.

(** ** Every lawful owner behaves as the tree owner *)

(** Whether a render succeeds depends on the forest only, not on the
    callback. *)
Lemma render_ok_transfer {F G} cp top (l : list Item) (cb1 : option F) (cb2 : option G) v :
  TableOfContentsItems (mkProps None cp top l cb1) = Ok v ->
  exists v', TableOfContentsItems (mkProps None cp top l cb2) = Ok v'.
Proof.
  intros Hv. pose proof (TableOfContentsItems_is_ok (mkProps None cp top l cb1)) as H1.
  pose proof (TableOfContentsItems_is_ok (mkProps None cp top l cb2)) as H2.
  simpl in H1, H2. rewrite Hv in H1. rewrite <- H1 in H2.
  destruct (TableOfContentsItems (mkProps None cp top l cb2)); [by eexists | done].
Qed.

(** A click on [x]'s toggle in one owner's render can be replayed in any
    other owner's render of the same forest. *)
Lemma step_transfer {S T} `{MenuStateOwnerLaws S} `{MenuStateOwnerLaws T} cp top
    (s : S) (u : T) v t l h s' :
  owner_items u = owner_items s ->
  render_state cp top s = Ok v -> In (EToggle t l h) (entries v) -> click h s = Ok s' ->
  exists u', step cp top u u' /\ owner_items u' = owner_items s'.
Proof.
  intros Hu Hv Hin Hc.
  destruct (toggle_entry_shown _ v t l h Hv Hin) as (x & Hx & Hm & -> & ->).
  injection Hc as <-.
  unfold render_state in Hv. rewrite <- Hu in Hv.
  destruct (render_ok_transfer _ _ _ _ (Some (@owner_set T _)) _ Hv) as [v' Hv'].
  exists (owner_set (mkToggleArgs (id x) (negb (truthy (isOpen x)))) u). split.
  - eapply (step_click cp top u v' t (title x) (toggleOpenState (Some owner_set) x));
      [exact Hv' | | reflexivity].
    apply (shown_toggle_entry (mkProps None cp top (owner_items u) (Some owner_set))); [done | | done].
    simpl. by rewrite Hu.
  - by rewrite !owner_set_spec, Hu.
Qed.

(** C16: Errors.  [setMenuOpenStateById] is an optional prop of
    [TableOfContentsItems]; when it is not given, the tree still renders,
    and a click on any of its toggles throws (the closure calls
    [undefined]). *)
Theorem click_without_callback {S} (p : TableOfContentsItemsProps (ToggleArgs -> S -> S)) v t l h s :
  TableOfContentsItems p = Ok v -> setMenuOpenStateById p = None ->
  In (EToggle t l h) (entries v) -> click h s = Err NotAFunction.
Proof.
  intros Hv Hcb Hin. destruct (toggle_entry_shown p v t l h Hv Hin) as (x & _ & _ & _ & ->).
  unfold click. simpl. by rewrite Hcb.
Qed.

(** ** Witnesses on the specification's scenario, held by the tree owner *)

Module Example.
Definition s0 : list Item := [Scenario.itemA; Scenario.itemB (Some false)].
Definition h0 : Handler (ToggleArgs -> list Item -> list Item) :=
  mkHandler (Some (@owner_set _ TreeOwner)) (mkToggleArgs "b" true).
Definition s1 : list Item := map (set_open_by_id "b" true) s0.
End Example.

Lemma click_toggles_menu_witness :
  exists v, render_state "/a" (Some true) Example.s0 = Ok v /\
  In (EToggle true "B" Example.h0) (entries v) /\
  exists x s', visible (owner_items Example.s0) x /\ getItemComponent (type x) = Some CMenu /\
    click Example.h0 Example.s0 = Ok s' /\
    flags (owner_items s') =
      map (fun '(j, o) => (j, if String.eqb j (id x) then Some (negb (truthy (isOpen x))) else o))
          (flags (owner_items Example.s0)) /\
    map shape (owner_items s') = map shape (owner_items Example.s0).
Proof.
  eexists. split; [reflexivity |]. split; [simpl; right; left; reflexivity |].
  eapply (click_toggles_menu "/a" (Some true) Example.s0); [reflexivity |].
  simpl. right. left. reflexivity.
Defined.

Lemma click_without_callback_witness :
  exists v, TableOfContentsItems (F := ToggleArgs -> list Item -> list Item)
              (mkProps None "/a" (Some true) Example.s0 None) = Ok v /\
  In (EToggle true "B" (mkHandler None (mkToggleArgs "b" true))) (entries v) /\
  click (S := list Item) (mkHandler None (mkToggleArgs "b" true)) Example.s0 = Err NotAFunction.
Proof.
  eexists. split; [reflexivity |]. split; [simpl; right; left; reflexivity |].
  eapply (click_without_callback (mkProps None "/a" (Some true) Example.s0 None));
    [reflexivity | reflexivity | simpl; right; left; reflexivity].
Defined.
