(* ===== verification/Liveness.v ===== *)
(** * Liveness: every entry under menus can be brought into view

    An item reachable from a root through [menu] items with children
    ([menu_path_at], at depth [d]) can be made visible by a finite run of the click /
    re-render loop, for any lawful owner of the open state, provided every
    tag of the forest is known (so that every render succeeds).  The run
    opens the closed menus on the path one after the other, from the root
    down; each of them is visible when it is clicked, since its ancestors
    have been opened and opening never hides anything, so the run takes at
    most one click per menu above the item.  The file ends with
    the bound on the size of a render. *)

From stdpp Require Import gmap.
From S2P Require Import Prelude Items Styles Render Visible Interaction.

(** An item reachable from the roots through [menu] items with children,
    with the number of menus between the root and the item. *)
Inductive menu_path_at (roots : list Item) : nat -> Item -> Prop :=
| menu_path_at_root x :
    In x roots -> menu_path_at roots 0 x
| menu_path_at_child d m cs x :
    menu_path_at roots d m -> getItemComponent (type m) = Some CMenu ->
    children m = Some cs -> In x cs -> menu_path_at roots (S d) x.

(** Opening the items of the ids [ids], in order. *)
Definition opens (ids : list string) (x : Item) : Item :=
  fold_left (fun y i => set_open_by_id i true y) ids x.

(** ** What the update keeps *)

Lemma set_open_by_id_fields i b (x : Item) :
  title (set_open_by_id i b x) = title x /\ type (set_open_by_id i b x) = type x /\
  id (set_open_by_id i b x) = id x /\
  children (set_open_by_id i b x) = option_map (map (set_open_by_id i b)) (children x).
Proof. by destruct x. Qed.

Lemma type_opens ids (x : Item) : type (opens ids x) = type x.
Proof.
  revert x. induction ids as [|i ids IH]; intros x; [done |]. simpl.
  rewrite IH. apply set_open_by_id_fields.
Qed.

Lemma all_nodes_set_open_by_id i b (x : Item) :
  all_nodes (set_open_by_id i b x) = map (set_open_by_id i b) (all_nodes x).
Proof.
  induction x as [t ty p cs j o IH] using Item_ind.
  destruct cs as [cs|]; simpl in *; [| done]. f_equal.
  rewrite !flat_map_concat_map, concat_map, !map_map. f_equal. by apply map_ext_Forall.
Qed.

Lemma known_set_open_by_id i b (x : Item) : known (set_open_by_id i b x) = known x.
Proof. unfold known. by rewrite (proj1 (proj2 (set_open_by_id_fields i b x))). Qed.

Lemma wf_set_open_by_id i b (l : list Item) :
  forallb known (flat_map all_nodes (map (set_open_by_id i b) l)) =
  forallb known (flat_map all_nodes l).
Proof.
  rewrite !forallb_flat_map, forallb_map. apply forallb_ext_in. intros x _.
  rewrite all_nodes_set_open_by_id, forallb_map. apply forallb_ext_in. intros y _.
  apply known_set_open_by_id.
Qed.

(** ** Visible items are nodes, and opening never hides one *)

Lemma all_nodes_child (r m c : Item) cs :
  In m (all_nodes r) -> children m = Some cs -> In c cs -> In c (all_nodes r).
Proof.
  induction r as [t ty p rcs j o IH] using Item_ind. intros Hm Hcs Hc.
  destruct Hm as [<- | Hm].
  - simpl in Hcs; subst rcs. right. apply in_flat_map. exists c.
    split; [done |]. destruct c; left; done.
  - destruct rcs as [rcs|]; [| contradiction]. simpl in IH.
    apply in_flat_map in Hm as (r' & Hr' & Hm). right. apply in_flat_map.
    exists r'. split; [done |]. rewrite Forall_forall in IH. by apply (IH r' Hr' Hm).
Qed.

Lemma visible_node roots (x : Item) : visible roots x -> In x (flat_map all_nodes roots).
Proof.
  induction 1 as [x Hx | m cs x _ IH _ Hcs _ Hx].
  - apply in_flat_map. exists x. split; [done |]. destruct x; left; done.
  - apply in_flat_map in IH as (r & Hr & Hm). apply in_flat_map.
    exists r. split; [done |]. by apply (all_nodes_child r m x cs).
Qed.

Lemma visible_set_open_by_id roots i (x : Item) :
  visible roots x -> visible (map (set_open_by_id i true) roots) (set_open_by_id i true x).
Proof.
  induction 1 as [x Hx | m cs x _ IH Hm Hcs Ho Hx].
  - apply visible_root. by apply in_map.
  - destruct (set_open_by_id_fields i true m) as (_ & Hty & _ & Hch).
    apply (visible_child _ (set_open_by_id i true m) (map (set_open_by_id i true) cs)).
    + done.
    + by rewrite Hty.
    + by rewrite Hch, Hcs.
    + destruct m as [t ty p mcs j o]. simpl in *. by destruct (String.eqb j i).
    + by apply in_map.
Qed.

(** ** Opening along a path *)

Lemma opens_cons i ids (x : Item) : opens (i :: ids) x = opens ids (set_open_by_id i true x).
Proof. reflexivity. Qed.

Lemma opens_snoc ids i (x : Item) : opens (ids ++ [i]) x = set_open_by_id i true (opens ids x).
Proof. unfold opens. by rewrite fold_left_app. Qed.

Lemma children_opens ids (m : Item) :
  children (opens ids m) = option_map (map (opens ids)) (children m).
Proof.
  revert m. induction ids as [|i ids IH]; intros m; simpl.
  - destruct (children m); simpl; [by rewrite map_id | done].
  - rewrite IH, (proj2 (proj2 (proj2 (set_open_by_id_fields i true m)))).
    destruct (children m); simpl; [by rewrite map_map | done].
Qed.

Lemma shape_opens ids (x : Item) : shape (opens ids x) = shape x.
Proof.
  revert x. induction ids as [|i ids IH]; intros x; [done |].
  rewrite opens_cons, IH. apply shape_set_open_by_id.
Qed.

Lemma wf_opens ids (l : list Item) :
  forallb known (flat_map all_nodes (map (opens ids) l)) = forallb known (flat_map all_nodes l).
Proof.
  revert l. induction ids as [|i ids IH]; intros l.
  - assert (E : map (opens []) l = l) by apply map_id. by rewrite E.
  - replace (map (opens (i :: ids)) l)
      with (map (opens ids) (map (set_open_by_id i true) l)) by (rewrite map_map; done).
    rewrite IH. apply wf_set_open_by_id.
Qed.

(** ** One click opens a visible closed menu *)

Section Run.
Variable (cp : string) (top : option bool).

Lemma render_wf (l : list Item) :
  forallb known (flat_map all_nodes l) = true -> exists v, render_state (S := list Item) cp top l = Ok v.
Proof.
  intros Hwf. unfold render_state. change (owner_items l) with l.
  pose proof (TableOfContentsItems_is_ok (mkProps None cp top l (Some (@owner_set _ TreeOwner)))) as Hok.
  destruct (TableOfContentsItems _) as [v|] eqn:E; [by exists v |].
  simpl in Hok.
  assert (Hr : forallb known (flat_map reach l) = true).
  { apply forallb_forall. intros x Hx. apply visible_reach, visible_node in Hx.
    rewrite forallb_forall in Hwf. by apply Hwf. }
  rewrite Hr in Hok. discriminate.
Qed.

Lemma open_step (l : list Item) (m : Item) cs :
  forallb known (flat_map all_nodes l) = true -> visible l m ->
  getItemComponent (type m) = Some CMenu -> children m = Some cs -> truthy (isOpen m) = false ->
  step cp top l (map (set_open_by_id (id m) true) l).
Proof.
  intros Hwf Hvis Hm Hcs Ho. destruct (render_wf l Hwf) as [v Hv].
  assert (Hs : shows m = true) by (unfold shows; rewrite Hm, Hcs; done).
  pose proof (proj2 (shown_visible_iff (default false top) l m) (conj Hvis Hs)) as Hin.
  apply in_map_iff in Hin as ([m' t] & Heq & Hin). simpl in Heq; subst m'.
  eapply (step_click cp top l v t (title m) (toggleOpenState (Some owner_set) m)); [exact Hv | |].
  - by apply (shown_toggle_entry (mkProps None cp top l (Some owner_set))).
  - unfold click, toggleOpenState. simpl. by rewrite Ho.
Qed.

(** Opening the closed menus of a path, from the root down, makes the end
    of the path visible, one click for each closed menu on the path. *)
Lemma menu_path_run (l : list Item) (d : nat) (y : Item) :
  forallb known (flat_map all_nodes l) = true -> menu_path_at l d y ->
  exists n ids, nsteps (step cp top) n l (map (opens ids) l) /\ n <= d /\
    visible (map (opens ids) l) (opens ids y).
Proof.
  intros Hwf. induction 1 as [y Hy | d m cs y _ IH Hm Hcs Hy].
  - exists 0, []. assert (E : map (opens []) l = l) by apply map_id. rewrite E.
    split_and!; [apply nsteps_O | lia | by apply visible_root].
  - destruct IH as (n & ids & Hrun & Hn & Hvis).
    assert (Hm' : getItemComponent (type (opens ids m)) = Some CMenu) by (by rewrite type_opens).
    assert (Hcs' : children (opens ids m) = Some (map (opens ids) cs)) by (by rewrite children_opens, Hcs).
    assert (Hy' : In (opens ids y) (map (opens ids) cs)) by (by apply in_map).
    destruct (truthy (isOpen (opens ids m))) eqn:Ho.
    { exists n, ids. split_and!; [done | lia |]. by apply (visible_child _ (opens ids m) (map (opens ids) cs)). }
    exists (S n), (ids ++ [id (opens ids m)]).
    assert (E : map (opens (ids ++ [id (opens ids m)])) l =
                map (set_open_by_id (id (opens ids m)) true) (map (opens ids) l)).
    { rewrite map_map. apply map_ext. intros x. apply opens_snoc. }
    rewrite E, opens_snoc. split_and!; [| lia |].
    + eapply nsteps_r; [exact Hrun |]. eapply open_step; [| exact Hvis | exact Hm' | exact Hcs' | exact Ho].
      by rewrite wf_opens.
    + destruct (set_open_by_id_fields (id (opens ids m)) true (opens ids m)) as (_ & Hty & _ & Hch).
      apply (visible_child _ (set_open_by_id (id (opens ids m)) true (opens ids m))
               (map (set_open_by_id (id (opens ids m)) true) (map (opens ids) cs))).
      * by apply visible_set_open_by_id.
      * by rewrite Hty.
      * by rewrite Hch, Hcs'.
      * destruct (opens ids m) as [t ty p mcs j o]. simpl. by rewrite String.eqb_refl.
      * by apply in_map.
Qed.
End Run.

(** A run of the tree owner from an owner's forest is a run of the owner,
    of the same length. *)
Lemma nsteps_transfer {S} `{MenuStateOwnerLaws S} cp top n (s : S) (l' : list Item) :
  nsteps (step cp top) n (owner_items s) l' ->
  exists s', nsteps (step cp top) n s s' /\ owner_items s' = l'.
Proof.
  remember (owner_items s) as l eqn:El. intros Hrun. revert s El.
  induction Hrun as [l | n l l1 l' Hst _ IH]; intros s El.
  - exists s. split; [apply nsteps_O | done].
  - inversion Hst as [l0 v t lab h l2 Hv Hin Hc]; subst l0 l2.
    assert (Hu : owner_items s = owner_items (l : list Item)) by (by rewrite El).
    destruct (step_transfer cp top l s v t lab h l1 Hu Hv Hin Hc) as (s1 & Hs1 & E1).
    destruct (IH s1 (eq_sym E1)) as (s' & Hrun' & E'). exists s'. split; [| done].
    by apply (nsteps_l _ _ _ s1).
Qed.

(** Any lawful owner brings an item at depth [d] into view in at most [d]
    clicks. *)
Lemma run_to_visible {S} `{MenuStateOwnerLaws S} cp top (s : S) d (y : Item) :
  forallb known (flat_map all_nodes (owner_items s)) = true -> menu_path_at (owner_items s) d y ->
  exists n s' y', nsteps (step cp top) n s s' /\ n <= d /\ visible (owner_items s') y' /\ shape y' = shape y.
Proof.
  intros Hwf Hy. destruct (menu_path_run cp top _ d y Hwf Hy) as (n & ids & Hrun & Hn & Hvis).
  destruct (nsteps_transfer cp top n s _ Hrun) as (s' & Hs' & E).
  exists n, s', (opens ids y). rewrite E. split_and!; [done | done | done | apply shape_opens].
Qed.

(** C10: Liveness and termination.  If every tag of the forest is known,
    an item below [d] menus is brought into view by a run of at most [d]
    clicks and re-renders of any lawful owner, one for each closed menu on
    its path. *)
Theorem menus_reach_visible_within {S} `{MenuStateOwnerLaws S} cp top (s : S) d (y : Item) :
  forallb known (flat_map all_nodes (owner_items s)) = true -> menu_path_at (owner_items s) d y ->
  exists n s' y', nsteps (step cp top) n s s' /\ n <= d /\ visible (owner_items s') y' /\ shape y' = shape y.
Proof. apply run_to_visible. Qed.

Lemma menus_reach_visible_within_witness :
  forallb known (flat_map all_nodes Example.s0) = true /\
  menu_path_at Example.s0 1 Scenario.itemC /\
  exists n s' y', nsteps (step "/a" (Some true)) n Example.s0 s' /\ n <= 1 /\
    visible (owner_items s') y' /\ shape y' = shape Scenario.itemC.
Proof.
  assert (Hwf : forallb known (flat_map all_nodes Example.s0) = true) by reflexivity.
  assert (Hp : menu_path_at Example.s0 1 Scenario.itemC).
  { apply (menu_path_at_child _ 0 (Scenario.itemB (Some false)) [Scenario.itemC]);
      [apply menu_path_at_root; simpl; right; left; reflexivity | reflexivity | reflexivity |
       simpl; left; reflexivity]. }
  split; [exact Hwf |]. split; [exact Hp |].
  exact (menus_reach_visible_within (S := list Item) "/a" (Some true) Example.s0 1 Scenario.itemC Hwf Hp).
Defined.

(** ** The size of a render *)

Lemma all_nodes_unfold (x : Item) :
  all_nodes x = x :: from_option (flat_map all_nodes) [] (children x).
Proof. by destruct x as [t ty p [cs|] j o]. Qed.

Lemma opened_cases (x : Item) :
  opened x = [] \/ exists cs, children x = Some cs /\ opened x = cs.
Proof.
  unfold opened. destruct_tag x; destruct (children x) as [cs|]; auto.
  destruct (truthy (isOpen x)); eauto.
Qed.

Lemma shown_length top (x : Item) : length (shown top x) <= length (all_nodes x).
Proof.
  revert top. induction x as [x IH] using opened_ind. intros top.
  rewrite shown_unfold, all_nodes_unfold. destruct (shows x); simpl; [| lia].
  apply le_n_S. destruct (opened_cases x) as [-> | (cs & Hcs & Ho)]; simpl; [lia |].
  rewrite Hcs. simpl. rewrite <- Ho. apply length_flat_map_le. intros c Hc. by apply IH.
Qed.

(** C19: Bounds.  A render has at most one entry (toggle, link or bulleted
    link) per node of the forest: the rendered output is linear in the size
    of the input, whatever the open flags. *)
Theorem TableOfContentsItems_size {F} (p : TableOfContentsItemsProps F) v :
  TableOfContentsItems p = Ok v -> length (entries v) <= length (flat_map all_nodes (items p)).
Proof.
  intros Hv. rewrite (TableOfContentsItems_entries p v Hv), length_map.
  apply length_flat_map_le. intros x _. apply shown_length.
Qed.

Lemma TableOfContentsItems_size_witness :
  exists v, TableOfContentsItems (Scenario.props (Some true)) = Ok v /\
  length (entries v) <= length (flat_map all_nodes (items (Scenario.props (Some true)))).
Proof.
  eexists. split; [reflexivity |].
  apply (TableOfContentsItems_size (Scenario.props (Some true))). reflexivity.
Defined.
