(* ===== verification/Roundtrip.v ===== *)
(** * Roundtrip: a menu toggled twice, and the well-formed forests

    A well-formed forest ([wf_forest]) has known tags only and unique ids.
    The click / re-render loop keeps it well-formed.  On such a forest a
    menu's toggle survives its own click: the re-render shows the same
    toggle again, and clicking it restores the flag.  The flag returns to
    its value when it was set; an [undefined] flag comes back as [false]. *)

From stdpp Require Import gmap.
From S2P Require Import Prelude Items Styles Render Visible Interaction Liveness.

(** Known tags and unique ids, as a boolean. *)
Definition wf_forest (l : list Item) : bool :=
  forallb known (flat_map all_nodes l) && bool_decide (NoDup (tree_ids l)).

(** The ids the toggles of a render request, in document order. *)
Definition requested_ids {F} (es : list (Entry (F := F))) : list string :=
  flat_map (fun e => match e with EToggle _ _ h => [targ_id (h_args h)] | _ => [] end) es.

(** ** The update keeps ids, and what it does to one node *)

Lemma tree_ids_set_open_by_id i b (l : list Item) :
  tree_ids (map (set_open_by_id i b) l) = tree_ids l.
Proof.
  unfold tree_ids. rewrite !flat_map_concat_map, !map_map, !concat_map, !map_map. f_equal.
  apply map_ext. intros x. rewrite all_nodes_set_open_by_id, map_map.
  apply map_ext. intros y. apply set_open_by_id_fields.
Qed.

Lemma isOpen_set_open_by_id i b (x : Item) :
  isOpen (set_open_by_id i b x) = if String.eqb (id x) i then Some b else isOpen x.
Proof. by destruct x. Qed.

(** Setting twice is setting with the second value. *)
Lemma set_open_by_id_twice i b1 b2 (x : Item) :
  set_open_by_id i b2 (set_open_by_id i b1 x) = set_open_by_id i b2 x.
Proof.
  induction x as [t ty p cs j o IH] using Item_ind. simpl.
  destruct (String.eqb j i); destruct cs as [cs|]; simpl in *; try done;
    rewrite map_map; by rewrite (map_ext_Forall _ _ _ IH).
Qed.

(** Setting a flag every node with that id already has changes nothing. *)
Lemma set_open_by_id_fixed i b (x : Item) :
  (forall z, In z (all_nodes x) -> id z = i -> isOpen z = Some b) -> set_open_by_id i b x = x.
Proof.
  induction x as [t ty p cs j o IH] using Item_ind. intros H. simpl.
  assert (Ho : (if String.eqb j i then Some b else o) = o).
  { destruct (String.eqb_spec j i) as [<- | _]; [| done]. symmetry. by apply (H _ (or_introl eq_refl)). }
  rewrite Ho. destruct cs as [cs|]; [| done]. simpl in *. do 2 f_equal.
  rewrite <- (map_id cs) at 2. apply map_ext_in. intros c Hc. rewrite Forall_forall in IH.
  apply IH; [done |]. intros z Hz. apply H. right. apply in_flat_map. by exists c.
Qed.

Lemma shows_set_open_by_id i b (x : Item) : shows (set_open_by_id i b x) = shows x.
Proof.
  unfold shows. destruct (set_open_by_id_fields i b x) as (_ & -> & _ & ->).
  by destruct (children x).
Qed.

Lemma opened_set_open_by_id i b (x : Item) :
  id x <> i -> opened (set_open_by_id i b x) = map (set_open_by_id i b) (opened x).
Proof.
  intros Hne. unfold opened. rewrite isOpen_set_open_by_id.
  destruct (String.eqb_spec (id x) i) as [? | _]; [done |].
  destruct (set_open_by_id_fields i b x) as (_ & -> & _ & ->).
  destruct_tag x; destruct (children x); simpl; try done. by destruct (truthy (isOpen x)).
Qed.

Lemma reach_all_nodes (y x : Item) : In x (reach y) -> In x (all_nodes y).
Proof.
  revert x. induction y as [y IH] using opened_ind. intros x.
  rewrite reach_unfold, all_nodes_unfold. intros [<- | (c & Hc & Hx)%in_flat_map]; [by left |].
  right. destruct (opened_children _ _ Hc) as (cs & -> & Hcs). simpl.
  apply in_flat_map. exists c. split; [done |]. by apply IH.
Qed.

(** Unique ids: a child's subtree has unique ids, none of them its parent's. *)
Lemma nodup_opened (y c : Item) :
  NoDup (map id (all_nodes y)) -> In c (opened y) ->
  NoDup (map id (all_nodes c)) /\ ~ In (id y) (map id (all_nodes c)).
Proof.
  intros Hnd Hc. destruct (opened_children _ _ Hc) as (cs & Hcs & Hin).
  rewrite all_nodes_unfold, Hcs in Hnd. simpl in Hnd.
  apply list.NoDup_cons in Hnd as [Hy Hnd]. rewrite list_elem_of_In in Hy.
  rewrite map_flat_map in Hnd. split; [exact (NoDup_flat_map_In (fun x => map id (all_nodes x)) cs c Hnd Hin) |].
  intros Hi. apply Hy. rewrite map_flat_map. apply in_flat_map. by exists c.
Qed.

(** With unique ids, setting a shown node's flag keeps it shown at the
    same level: none of its ancestors carries its id. *)
Lemma shown_set_open_by_id b (y x : Item) : forall top t,
  NoDup (map id (all_nodes y)) -> In (x, t) (shown top y) ->
  In (set_open_by_id (id x) b x, t) (shown top (set_open_by_id (id x) b y)).
Proof.
  induction y as [y IH] using opened_ind. intros top t Hnd Hx.
  rewrite shown_unfold in Hx |- *. rewrite shows_set_open_by_id.
  destruct (shows y); [| contradiction].
  destruct Hx as [[= -> ->] | (c & Hc & Hx)%in_flat_map]; [by left |].
  destruct (nodup_opened y c Hnd Hc) as [Hndc Hy].
  assert (Hne : id y <> id x).
  { intros E. apply Hy. rewrite E. apply in_map, reach_all_nodes, (shown_reach false).
    apply in_map_iff. by exists (x, t). }
  right. rewrite opened_set_open_by_id by done. apply in_flat_map.
  exists (set_open_by_id (id x) b c). split; [by apply in_map | by apply IH].
Qed.

Lemma shown_forest_set_open_by_id b top (l : list Item) (x : Item) t :
  NoDup (tree_ids l) -> In (x, t) (flat_map (shown top) l) ->
  In (set_open_by_id (id x) b x, t) (flat_map (shown top) (map (set_open_by_id (id x) b) l)).
Proof.
  intros Hnd (r & Hr & Hx)%in_flat_map. apply in_flat_map.
  exists (set_open_by_id (id x) b r). split; [by apply in_map |].
  apply shown_set_open_by_id; [| done].
  unfold tree_ids in Hnd. rewrite map_flat_map in Hnd.
  exact (NoDup_flat_map_In (fun x => map id (all_nodes x)) l r Hnd Hr).
Qed.

(** A forest whose tags are all known renders, whatever the callback. *)
Lemma render_known {F} cp top (l : list Item) (cb : option F) :
  forallb known (flat_map all_nodes l) = true -> exists v, TableOfContentsItems (mkProps None cp top l cb) = Ok v.
Proof.
  intros Hwf. destruct (render_wf cp top l Hwf) as [v Hv].
  exact (render_ok_transfer _ _ _ _ cb _ Hv).
Qed.

(** The click on a rendered toggle, in terms of the shown node it belongs to. *)
Lemma click_shown {S} `{MenuStateOwnerLaws S} cp top (s : S) v t l h s1 :
  render_state cp top s = Ok v -> In (EToggle t l h) (entries v) -> click h s = Ok s1 ->
  exists x, In (x, t) (flat_map (shown (default false top)) (owner_items s)) /\
    getItemComponent (type x) = Some CMenu /\ l = title x /\ h_args h = mkToggleArgs (id x) (negb (truthy (isOpen x))) /\
    owner_items s1 = map (set_open_by_id (id x) (negb (truthy (isOpen x)))) (owner_items s).
Proof.
  intros Hv Hin Hc. destruct (toggle_entry_shown _ v t l h Hv Hin) as (x & Hx & Hm & -> & ->).
  exists x. do 3 (split; [done |]). split; [done |].
  injection Hc as <-. by rewrite owner_set_spec.
Qed.

(** The shown items of a tree are some of its nodes, in order. *)
Lemma shown_sublist (top : bool) (x : Item) : sublist (map fst (shown top x)) (all_nodes x).
Proof.
  revert top. induction x as [x IH] using opened_ind. intros top.
  rewrite shown_unfold, all_nodes_unfold. destruct (shows x); [| apply sublist_nil_l].
  simpl. apply sublist_skip. rewrite map_flat_map_fst.
  destruct (opened_cases x) as [-> | (cs & -> & Eo)]; [apply sublist_nil_l |].
  simpl. rewrite Eo in IH |- *. apply sublist_flat_map. intros c Hc. by apply IH.
Qed.

(** Equal entries belong to items with equal ids. *)
Lemma entry_of_id {F} (cb : option F) cp (xt yt : Item * bool) :
  entry_of cb cp xt = entry_of cb cp yt -> id xt.1 = id yt.1.
Proof.
  destruct xt as [x t], yt as [y u]. unfold entry_of, toggleOpenState. simpl.
  destruct_tag x; destruct_tag y; intros H; simplify_eq; done.
Qed.

(** A toggle requests the id of its item; links request nothing. *)
Lemma requested_ids_sublist {F} (cb : option F) cp (L : list (Item * bool)) :
  sublist (requested_ids (map (entry_of cb cp) L)) (map (fun xt => id xt.1) L).
Proof.
  induction L as [|[x t] L IH]; simpl; [constructor |].
  unfold entry_of. destruct_tag x; simpl; by constructor.
Qed.

(** ** Theorems *)

(** C9: Roundtrip.  On a well-formed forest, a click on a menu's toggle
    sets the flags of that menu's id to the negation of its truthiness;
    after the re-render the same toggle (same level, same label) is
    rendered again, and clicking it sets the flag back to its truthiness
    before the first click.  So a defined flag, and the whole forest, come
    back to what they were; an [undefined] flag comes back as [false]. *)
Theorem toggle_twice {S} `{MenuStateOwnerLaws S} cp top (s : S) v t l h s1 :
  wf_forest (owner_items s) = true ->
  render_state cp top s = Ok v -> In (EToggle t l h) (entries v) -> click h s = Ok s1 ->
  exists x v1 h1 s2, visible (owner_items s) x /\ targ_id (h_args h) = id x /\
    owner_items s1 = map (set_open_by_id (id x) (negb (truthy (isOpen x)))) (owner_items s) /\
    render_state cp top s1 = Ok v1 /\ In (EToggle t l h1) (entries v1) /\ click h1 s1 = Ok s2 /\
    owner_items s2 = map (set_open_by_id (id x) (truthy (isOpen x))) (owner_items s) /\
    (isOpen x <> None -> owner_items s2 = owner_items s).
Proof.
  intros Hwf Hv Hin Hc. apply andb_prop in Hwf as [Hkn Hnd%bool_decide_eq_true].
  destruct (click_shown _ _ _ _ _ _ _ _ Hv Hin Hc) as (x & Hx & Hm & -> & Ha & Hs1).
  set (b := negb (truthy (isOpen x))) in *. set (x1 := set_open_by_id (id x) b x).
  assert (Hx1 : In (x1, t) (flat_map (shown (default false top)) (owner_items s1))).
  { rewrite Hs1. by apply shown_forest_set_open_by_id. }
  destruct (set_open_by_id_fields (id x) b x) as (Ht & Hty & Hid & _). fold x1 in Ht, Hty, Hid.
  destruct (render_known cp top (owner_items s1) (Some owner_set)) as [v1 Hv1].
  { rewrite Hs1, wf_set_open_by_id. exact Hkn. }
  assert (Hvis : visible (owner_items s) x).
  { apply (shown_visible_iff (default false top)), in_map_iff. by exists (x, t). }
  exists x, v1, (toggleOpenState (Some owner_set) x1), (owner_set (mkToggleArgs (id x) (truthy (isOpen x))) s1).
  split; [done |]. split; [by rewrite Ha |]. split; [exact Hs1 |]. split; [exact Hv1 |]. split.
  { rewrite <- Ht. apply (shown_toggle_entry (mkProps None cp top (owner_items s1) (Some owner_set))); [done | done |].
    by rewrite Hty. }
  split.
  { unfold click, toggleOpenState. simpl. rewrite Hid. unfold x1. rewrite isOpen_set_open_by_id, String.eqb_refl.
    unfold b. by destruct (truthy (isOpen x)). }
  assert (Hs2 : owner_items (owner_set (mkToggleArgs (id x) (truthy (isOpen x))) s1) =
                map (set_open_by_id (id x) (truthy (isOpen x))) (owner_items s)).
  { rewrite owner_set_spec, Hs1, map_map. simpl. apply map_ext. intros y. apply set_open_by_id_twice. }
  split; [exact Hs2 |]. intros Ho. rewrite Hs2. rewrite <- (map_id (owner_items s)) at 2.
  apply map_ext_in. intros r Hr. apply set_open_by_id_fixed. intros z Hz Hid'.
  assert (z = x) as ->.
  { apply (NoDup_map_In_inj id (flat_map all_nodes (owner_items s))); [exact Hnd | | by apply visible_node | done].
    apply in_flat_map. by exists r. }
  destruct (isOpen x) as [[]|]; [done | done | contradiction].
Qed.

(** C14: Safety.  With unique ids, the entries of a render are pairwise
    distinct (every shown item yields its own entry) and the ids the
    toggles of the render request are pairwise distinct: no two toggles
    request the same id, so each click changes one menu. *)
Theorem entries_distinct {F} (p : TableOfContentsItemsProps F) v :
  NoDup (tree_ids (items p)) -> TableOfContentsItems p = Ok v ->
  NoDup (entries v) /\ NoDup (requested_ids (entries v)).
Proof.
  intros Hnd Hv. rewrite (TableOfContentsItems_entries p v Hv).
  assert (Hs : NoDup (map (fun xt => id xt.1) (flat_map (shown (default false (isTopLevel p))) (items p)))).
  { rewrite <- map_map. apply (sublist_NoDup _ _ Hnd). unfold tree_ids. apply sublist_map.
    rewrite map_flat_map_fst. apply sublist_flat_map. intros r _. apply shown_sublist. }
  split.
  - apply (NoDup_map_weaken _ (fun xt => id xt.1)); [intros a b _ _; apply entry_of_id | exact Hs].
  - exact (sublist_NoDup _ _ Hs (requested_ids_sublist _ _ _)).
Qed.

(** The boundary: menu B starts with an [undefined] flag. *)
Module RoundtripExample.
Definition s0 : list Item := [Scenario.itemA; Scenario.itemB None].
Definition h0 : Handler (ToggleArgs -> list Item -> list Item) :=
  mkHandler (Some (@owner_set _ TreeOwner)) (mkToggleArgs "b" true).
Definition s1 : list Item := map (set_open_by_id "b" true) s0.
End RoundtripExample.

Lemma toggle_twice_witness :
  exists v, wf_forest (owner_items RoundtripExample.s0) = true /\
  render_state "/a" (Some true) RoundtripExample.s0 = Ok v /\
  In (EToggle true "B" RoundtripExample.h0) (entries v) /\
  click RoundtripExample.h0 RoundtripExample.s0 = Ok RoundtripExample.s1 /\
  exists x v1 h1 s2, visible (owner_items RoundtripExample.s0) x /\
    targ_id (h_args RoundtripExample.h0) = id x /\
    owner_items RoundtripExample.s1 =
      map (set_open_by_id (id x) (negb (truthy (isOpen x)))) (owner_items RoundtripExample.s0) /\
    render_state "/a" (Some true) RoundtripExample.s1 = Ok v1 /\ In (EToggle true "B" h1) (entries v1) /\
    click h1 RoundtripExample.s1 = Ok s2 /\
    owner_items s2 = map (set_open_by_id (id x) (truthy (isOpen x))) (owner_items RoundtripExample.s0) /\
    (isOpen x <> None -> owner_items s2 = owner_items RoundtripExample.s0).
Proof.
  assert (Hwf : wf_forest (owner_items RoundtripExample.s0) = true) by (vm_compute; reflexivity).
  eexists. split; [exact Hwf |]. split; [reflexivity |].
  assert (Hin : In (EToggle true "B" RoundtripExample.h0)
                  (entries (F := ToggleArgs -> list Item -> list Item)
                     (VList "" true ul [("A", VItemLink (mkLinkProps "/a" Scenario.itemA true (Some owner_set)));
                                       ("B", VLi (menuToggle true (Some owner_set) (Scenario.itemB None)) None)]))).
  { simpl. right. left. reflexivity. }
  split; [exact Hin |]. split; [reflexivity |].
  exact (toggle_twice "/a" (Some true) RoundtripExample.s0 _ true "B" RoundtripExample.h0 RoundtripExample.s1
           Hwf eq_refl Hin eq_refl).
Defined.

Lemma entries_distinct_witness :
  exists v, NoDup (tree_ids (items (Scenario.props (Some true)))) /\
    TableOfContentsItems (Scenario.props (Some true)) = Ok v /\
    NoDup (entries v) /\ NoDup (requested_ids (entries v)).
Proof.
  assert (Hnd : NoDup (tree_ids (items (Scenario.props (Some true))))).
  { apply (bool_decide_eq_true_1 _). vm_compute. reflexivity. }
  eexists. split; [exact Hnd |]. split; [reflexivity |].
  apply (entries_distinct (Scenario.props (Some true))); [exact Hnd | reflexivity].
Defined.
