(* ===== verification/Relabel.v ===== *)
(** * Relabel: the forests the loop can produce, as flag assignments

    With unique ids, a state of the click / re-render loop is the original
    forest with its flags replaced by a function from id to [boolean |
    undefined] ([relabel]).  A click replaces one id's value ([upd]).  A
    menu can be clicked only when every menu above it is open in the
    assignment ([open_path], or computably [reach_g]).  [admissible]
    describes the assignments the loop reaches: each item keeps its flag or
    is a menu with children whose new flag is defined, and the items under
    a menu whose flag stays undefined, or under an item that is not such a
    menu, keep their flags. *)

From stdpp Require Import gmap.
From S2P Require Import Prelude Items Styles Render Visible Interaction Liveness Roundtrip.

(** ** Definitions *)

(** The forest with every flag taken from [g]. *)
Fixpoint relabel (g : string -> option bool) (x : Item) : Item :=
  match x with
  | mkItem t ty p cs j _ => mkItem t ty p (option_map (map (relabel g)) cs) j (g j)
  end.

(** [g] after [setMenuOpenStateById({id: i, isOpen: b})]. *)
Definition upd (g : string -> option bool) (i : string) (b : bool) : string -> option bool :=
  fun j => if String.eqb j i then Some b else g j.

(** A menu with children: the items whose toggle is rendered. *)
Definition settable (x : Item) : bool :=
  bool_decide (getItemComponent (type x) = Some CMenu) && bool_decide (children x <> None).

(** A settable item whose flag in [g] is defined. *)
Definition active (g : string -> option bool) (x : Item) : bool :=
  settable x && bool_decide (g (id x) <> None).

(** Every item of [x] keeps its flag under [g]. *)
Definition frozen (g : string -> option bool) (x : Item) : bool :=
  forallb (fun z => bool_decide (g (id z) = isOpen z)) (all_nodes x).

(** The assignments a run of clicks can produce from [x]. *)
Fixpoint admissible (g : string -> option bool) (x : Item) : bool :=
  (bool_decide (g (id x) = isOpen x) || active g x) &&
  match x with
  | mkItem _ _ _ (Some cs) _ _ => forallb (fun c => if active g x then admissible g c else frozen g c) cs
  | _ => true
  end.

(** The items of [x] whose menus above are open in [g] (pre-order). *)
Fixpoint reach_g (g : string -> option bool) (x : Item) : list Item :=
  x :: match x with
       | mkItem _ ty _ (Some cs) j _ =>
           if bool_decide (getItemComponent ty = Some CMenu) && truthy (g j)
           then flat_map (reach_g g) cs else []
       | _ => []
       end.

(** The same as a relation, with the ids of the menus above. *)
Inductive open_path (roots : list Item) (g : string -> option bool) : list string -> Item -> Prop :=
| open_path_root x :
    In x roots -> open_path roots g [] x
| open_path_child A m cs x :
    open_path roots g A m -> getItemComponent (type m) = Some CMenu -> children m = Some cs ->
    truthy (g (id m)) = true -> In x cs -> open_path roots g (id m :: A) x.

(** The assignment a forest starts from: the flag of the item with the id. *)
Definition flag_of (l : list Item) (i : string) : option bool :=
  match find (fun z => String.eqb (id z) i) (flat_map all_nodes l) with
  | Some z => isOpen z
  | None => None
  end.

(** ** The relabelled forest *)

Lemma relabel_fields g (x : Item) :
  title (relabel g x) = title x /\ type (relabel g x) = type x /\ id (relabel g x) = id x /\
  children (relabel g x) = option_map (map (relabel g)) (children x) /\ isOpen (relabel g x) = g (id x).
Proof. by destruct x. Qed.

Lemma all_nodes_relabel g (x : Item) : all_nodes (relabel g x) = map (relabel g) (all_nodes x).
Proof.
  induction x as [t ty p cs j o IH] using Item_ind. destruct cs as [cs|]; simpl in *; [| done].
  f_equal. rewrite map_flat_map.
  induction IH as [|c cs Hc _ IHcs]; simpl; [done |]. by rewrite Hc, IHcs.
Qed.

Lemma set_relabel i b g (x : Item) : set_open_by_id i b (relabel g x) = relabel (upd g i b) x.
Proof.
  induction x as [t ty p cs j o IH] using Item_ind. simpl. unfold upd at 2.
  destruct cs as [cs|]; simpl in *; [| done]. rewrite map_map. by rewrite (map_ext_Forall _ _ _ IH).
Qed.

Lemma relabel_ext g g' (x : Item) :
  (forall z, In z (all_nodes x) -> g (id z) = g' (id z)) -> relabel g x = relabel g' x.
Proof.
  induction x as [t ty p cs j o IH] using Item_ind. intros H. simpl.
  pose proof (H _ (or_introl eq_refl)) as Hx. simpl in Hx. rewrite Hx.
  destruct cs as [cs|]; [| done]. simpl in *. do 2 f_equal.
  apply map_ext_in. intros c Hc. rewrite Forall_forall in IH. apply IH; [done |].
  intros z Hz. apply H. right. apply in_flat_map. by exists c.
Qed.

Lemma relabel_self g (x : Item) :
  (forall z, In z (all_nodes x) -> g (id z) = isOpen z) -> relabel g x = x.
Proof.
  induction x as [t ty p cs j o IH] using Item_ind. intros H. simpl.
  pose proof (H _ (or_introl eq_refl)) as Hx. simpl in Hx. rewrite Hx.
  destruct cs as [cs|]; [| done]. simpl in *. do 2 f_equal.
  rewrite <- (map_id cs) at 2. apply map_ext_in. intros c Hc. rewrite Forall_forall in IH.
  apply IH; [done |]. intros z Hz. apply H. right. apply in_flat_map. by exists c.
Qed.

Lemma wf_forest_relabel g (l : list Item) : wf_forest (map (relabel g) l) = wf_forest l.
Proof.
  unfold wf_forest, tree_ids, known.
  rewrite !flat_map_concat_map, !map_map, <- !flat_map_concat_map.
  assert (E : flat_map (fun x => all_nodes (relabel g x)) l = map (relabel g) (flat_map all_nodes l)).
  { rewrite map_flat_map. apply flat_map_ext. intros x. apply all_nodes_relabel. }
  rewrite E, forallb_map, map_map. f_equal.
  - apply forallb_ext_in. intros z _. by rewrite (proj1 (proj2 (relabel_fields g z))).
  - assert (Hm : map (fun x => id (relabel g x)) (flat_map all_nodes l) = map id (flat_map all_nodes l)).
    { apply map_ext. intros z. apply relabel_fields. }
    by rewrite Hm.
Qed.

(** ** Paths through open menus *)

Lemma reach_relabel g (x : Item) : reach (relabel g x) = map (relabel g) (reach_g g x).
Proof.
  induction x as [t ty p cs j o IH] using Item_ind. destruct cs as [cs|]; simpl in *; [| done].
  f_equal. destruct (bool_decide _ && truthy (g j)); [| done].
  rewrite map_flat_map. induction IH as [|c cs Hc _ IHcs]; simpl; [done |]. by rewrite Hc, IHcs.
Qed.

Lemma reach_g_nodes g (r x : Item) : In x (reach_g g r) -> In x (all_nodes r).
Proof.
  induction r as [t ty p cs j o IH] using Item_ind. simpl. intros [<- | Hx]; [by left | right].
  destruct cs as [cs|]; [| done]. simpl in IH. destruct (_ && _); [| done].
  apply in_flat_map in Hx as (c & Hc & Hx). rewrite Forall_forall in IH.
  apply in_flat_map. exists c. split; [done |]. by apply IH.
Qed.

Lemma reach_g_child g (r m c : Item) cs :
  In m (reach_g g r) -> getItemComponent (type m) = Some CMenu -> children m = Some cs ->
  truthy (g (id m)) = true -> In c cs -> In c (reach_g g r).
Proof.
  induction r as [t ty p rcs j o IH] using Item_ind. intros Hm Hty Hcs Ho Hc. simpl in Hm |- *.
  destruct Hm as [<- | Hm].
  - simpl in *. subst rcs. rewrite (bool_decide_eq_true_2 _ Hty), Ho. simpl. right.
    apply in_flat_map. exists c. split; [done |]. destruct c; by left.
  - right. destruct rcs as [rcs|]; [| done]. destruct (_ && _); [| done].
    apply in_flat_map in Hm as (r' & Hr' & Hm). unfold children_Forall in IH. rewrite Forall_forall in IH.
    apply in_flat_map. exists r'. split; [done |]. by apply (IH r' Hr').
Qed.

Lemma open_path_reach roots g A (x : Item) :
  open_path roots g A x -> In x (flat_map (reach_g g) roots).
Proof.
  induction 1 as [x Hx | A m cs x _ IH Hty Hcs Ho Hx].
  - apply in_flat_map. exists x. split; [done |]. destruct x; by left.
  - apply in_flat_map in IH as (r & Hr & Hm). apply in_flat_map. exists r. split; [done |].
    by apply (reach_g_child g r m x cs).
Qed.

Lemma open_path_node roots g A (x : Item) :
  open_path roots g A x -> In x (flat_map all_nodes roots).
Proof.
  intros (r & Hr & Hx)%open_path_reach%in_flat_map. apply in_flat_map. exists r.
  split; [done |]. by apply (reach_g_nodes g).
Qed.

Lemma open_path_ext roots g g' A (x : Item) :
  open_path roots g A x -> (forall i, In i A -> g' i = g i) -> open_path roots g' A x.
Proof.
  induction 1 as [x Hx | A m cs x _ IH Hty Hcs Ho Hx]; intros H; [by constructor |].
  apply (open_path_child _ _ A m cs); [| done | done | | done].
  - apply IH. intros i Hi. apply H. by right.
  - rewrite H; [done | by left].
Qed.

(** The relabelled forest shows exactly the relabelled items of [reach_g]. *)
Lemma visible_relabel_iff g (l : list Item) (y : Item) :
  visible (map (relabel g) l) y <-> exists x, y = relabel g x /\ In x (flat_map (reach_g g) l).
Proof.
  rewrite visible_reach. rewrite flat_map_concat_map, map_map, <- flat_map_concat_map.
  assert (E : flat_map (fun x => reach (relabel g x)) l = map (relabel g) (flat_map (reach_g g) l)).
  { rewrite map_flat_map. apply flat_map_ext. intros x. apply reach_relabel. }
  rewrite E, in_map_iff. split; intros (x & ? & ?); by exists x.
Qed.

(** ** Unique ids *)

Lemma all_nodes_incl (r z : Item) : In z (all_nodes r) -> incl (all_nodes z) (all_nodes r).
Proof.
  induction r as [t ty p cs j o IH] using Item_ind. simpl. intros [<- | Hz]; [intros y Hy; exact Hy |].
  destruct cs as [cs|]; [| done]. simpl in IH. rewrite Forall_forall in IH.
  apply in_flat_map in Hz as (c & Hc & Hz). intros y Hy. right. apply in_flat_map.
  exists c. split; [done |]. by apply (IH c Hc).
Qed.

Lemma nodup_children (m : Item) cs :
  NoDup (map id (all_nodes m)) -> children m = Some cs ->
  ~ In (id m) (map id (flat_map all_nodes cs)) /\ NoDup (map id (flat_map all_nodes cs)).
Proof.
  rewrite all_nodes_unfold. intros Hnd Hcs. rewrite Hcs in Hnd. simpl in Hnd.
  apply list.NoDup_cons in Hnd as [Hm Hnd]. by rewrite list_elem_of_In in Hm.
Qed.

Lemma nodup_sub (r z : Item) :
  NoDup (map id (all_nodes r)) -> In z (all_nodes r) -> NoDup (map id (all_nodes z)).
Proof.
  induction r as [t ty p cs j o IH] using Item_ind. intros Hnd [<- | Hz]; [done |].
  destruct cs as [cs|]; [| done]. simpl in IH, Hz. rewrite Forall_forall in IH.
  destruct (nodup_children (mkItem t ty p (Some cs) j o) cs Hnd eq_refl) as [_ Hcs].
  apply in_flat_map in Hz as (c & Hc & Hz). apply (IH c Hc); [| done].
  rewrite map_flat_map in Hcs. exact (NoDup_flat_map_In (fun x => map id (all_nodes x)) cs c Hcs Hc).
Qed.

Lemma nodup_node (l : list Item) (z : Item) :
  NoDup (tree_ids l) -> In z (flat_map all_nodes l) -> NoDup (map id (all_nodes z)).
Proof.
  intros Hnd (r & Hr & Hz)%in_flat_map. apply (nodup_sub r); [| done].
  unfold tree_ids in Hnd. rewrite map_flat_map in Hnd.
  exact (NoDup_flat_map_In (fun x => map id (all_nodes x)) l r Hnd Hr).
Qed.

(** Two members of a list whose ids are unique and that share an id are the same. *)
Lemma nodup_same {A} (f : A -> list Item) (l : list A) (a b : A) (i : string) :
  NoDup (map id (flat_map f l)) -> In a l -> In b l -> In i (map id (f a)) -> In i (map id (f b)) -> a = b.
Proof.
  induction l as [|c l IH]; [done |]. simpl. rewrite map_app.
  intros (Hc & Hdis & Hl)%list.NoDup_app Ha Hb Hia Hib.
  destruct Ha as [<- | Ha], Hb as [<- | Hb]; [done | | | by apply IH].
  - exfalso. apply (Hdis i); [by apply list_elem_of_In |]. apply list_elem_of_In.
    rewrite map_flat_map. apply in_flat_map. by exists b.
  - exfalso. apply (Hdis i); [by apply list_elem_of_In |]. apply list_elem_of_In.
    rewrite map_flat_map. apply in_flat_map. by exists a.
Qed.

(** The menus above an item carry none of the ids of its subtree. *)
Lemma open_path_disjoint roots g A (x : Item) :
  NoDup (tree_ids roots) -> open_path roots g A x ->
  forall i, In i A -> ~ In i (map id (all_nodes x)).
Proof.
  intros Hnd. induction 1 as [x Hx | A m cs x Hp IH Hty Hcs Ho Hx]; [done |].
  assert (Hsub : incl (map id (all_nodes x)) (map id (all_nodes m))).
  { apply incl_map, all_nodes_incl. rewrite all_nodes_unfold, Hcs. right. apply in_flat_map.
    exists x. split; [done |]. destruct x; by left. }
  intros i [<- | Hi] Hin.
  - destruct (nodup_children m cs (nodup_node roots m Hnd (open_path_node _ _ _ _ Hp)) Hcs) as [Hm _].
    apply Hm. rewrite map_flat_map. apply in_flat_map. by exists x.
  - exact (IH i Hi (Hsub i Hin)).
Qed.

(** ** Admissible assignments *)

Lemma frozen_iff g (x : Item) :
  frozen g x = true <-> forall z, In z (all_nodes x) -> g (id z) = isOpen z.
Proof.
  unfold frozen. rewrite forallb_forall.
  split; intros H z Hz; [exact (bool_decide_eq_true_1 _ (H z Hz)) | apply bool_decide_eq_true_2; auto].
Qed.

Lemma admissible_unfold g (x : Item) :
  admissible g x =
    (bool_decide (g (id x) = isOpen x) || active g x) &&
    forallb (fun c => if active g x then admissible g c else frozen g c) (default [] (children x)).
Proof. destruct x as [t ty p [cs|] j o]; simpl; [done | by rewrite andb_true_r]. Qed.

Lemma frozen_admissible g (x : Item) : frozen g x = true -> admissible g x = true.
Proof.
  induction x as [t ty p cs j o IH] using Item_ind. intros Hf.
  pose proof (proj1 (frozen_iff g _) Hf) as Hz.
  rewrite admissible_unfold. apply andb_true_intro. split.
  { apply orb_true_intro. left. apply bool_decide_eq_true_2. apply (Hz _ (or_introl eq_refl)). }
  destruct cs as [cs|]; [| done]. simpl in IH |- *. rewrite Forall_forall in IH.
  apply forallb_forall. intros c Hc.
  assert (Hfc : frozen g c = true).
  { apply frozen_iff. intros z Hzc. apply Hz. right. apply in_flat_map. by exists c. }
  destruct (active g _); [by apply IH | done].
Qed.

(** Each of [active], [frozen], [admissible] reads [g] at the ids of the item only. *)
Section Ext.
Variables (g g' : string -> option bool) (x : Item).
Hypothesis Hext : forall z, In z (all_nodes x) -> g (id z) = g' (id z).

Lemma active_ext : active g x = active g' x.
Proof. unfold active. rewrite (Hext x); [done |]. destruct x; by left. Qed.

Lemma frozen_ext : frozen g x = frozen g' x.
Proof. apply forallb_ext_in. intros z Hz. by rewrite (Hext z Hz). Qed.
End Ext.

Lemma admissible_ext g g' (x : Item) :
  (forall z, In z (all_nodes x) -> g (id z) = g' (id z)) -> admissible g x = admissible g' x.
Proof.
  induction x as [t ty p cs j o IH] using Item_ind. intros H.
  rewrite !admissible_unfold, (active_ext g g'); [| done].
  rewrite (H (mkItem t ty p cs j o)); [| by left]. f_equal.
  destruct cs as [cs|]; [| done]. simpl in IH |- *. rewrite Forall_forall in IH.
  apply forallb_ext_in. intros c Hc.
  assert (Hc' : forall z, In z (all_nodes c) -> g (id z) = g' (id z)).
  { intros z Hz. apply H. right. apply in_flat_map. by exists c. }
  destruct (active g' _); [by apply IH | by apply frozen_ext].
Qed.

Lemma upd_other g i b j : j <> i -> upd g i b j = g j.
Proof. unfold upd. by destruct (String.eqb_spec j i). Qed.

(** [upd] at an id that is not in an item does not change what is read there. *)
Lemma upd_outside g i b (x : Item) :
  ~ In i (map id (all_nodes x)) -> forall z, In z (all_nodes x) -> upd g i b (id z) = g (id z).
Proof. intros Hi z Hz. apply upd_other. intros <-. apply Hi. by apply in_map. Qed.

Lemma admissible_upd g b (r x : Item) :
  NoDup (map id (all_nodes r)) -> admissible g r = true -> In x (reach_g g r) -> settable x = true ->
  admissible (upd g (id x) b) r = true.
Proof.
  induction r as [t ty p cs j o IH] using Item_ind. intros Hnd Ha Hx Hs.
  set (r := mkItem t ty p cs j o) in *.
  destruct cs as [cs|].
  2:{ destruct Hx as [<- | []]. unfold settable in Hs. simpl in Hs. by rewrite andb_false_r in Hs. }
  destruct (nodup_children r cs Hnd eq_refl) as [Hj Hcs]. simpl in IH. rewrite Forall_forall in IH.
  rewrite admissible_unfold in Ha |- *. apply andb_prop in Ha as [Ha1 Ha2]. simpl in Ha2 |- *.
  (* every child's ids avoid [j] *)
  assert (Hout : forall c, In c cs -> ~ In j (map id (all_nodes c))).
  { intros c Hc Hin. apply Hj. rewrite map_flat_map. apply in_flat_map. by exists c. }
  simpl in Hx. destruct Hx as [Hx | Hx].
  - (* the clicked menu is the root *)
    assert (Eid : id x = j) by (rewrite <- Hx; reflexivity).
    rewrite Eid. rewrite <- Hx in Hs. assert (Hact : active (upd g j b) r = true).
    { unfold active. apply andb_true_intro. split; [exact Hs |].
      apply bool_decide_eq_true_2. unfold upd. simpl. by rewrite String.eqb_refl. }
    rewrite Hact, orb_true_r. simpl. apply forallb_forall. intros c Hc.
    rewrite (admissible_ext _ g c (upd_outside g j b c (Hout c Hc))).
    pose proof (proj1 (forallb_forall _ _) Ha2 c Hc) as Hac.
    destruct (active g r); [done | by apply frozen_admissible].
  - (* the clicked menu is below a child of the root, which is open *)
    destruct (bool_decide _ && truthy (g j)) eqn:Eo; [| done].
    apply andb_prop in Eo as [Hty Ho].
    apply in_flat_map in Hx as (c0 & Hc0 & Hx).
    assert (Hxj : id x <> j).
    { intros E. apply (Hout c0 Hc0). rewrite <- E. by apply in_map, (reach_g_nodes g). }
    assert (Hact : active g r = true).
    { unfold active, settable. simpl. rewrite Hty. simpl. apply bool_decide_eq_true_2.
      by destruct (g j) as [[]|]. }
    assert (Hact' : active (upd g (id x) b) r = true).
    { unfold active in *. simpl in *. by rewrite upd_other by congruence. }
    rewrite Hact, Hact' in *. rewrite orb_true_r. simpl. apply forallb_forall. intros c Hc.
    pose proof (proj1 (forallb_forall _ _) Ha2 c Hc) as Hac.
    rewrite map_flat_map in Hcs.
    destruct (in_dec String.string_dec (id x) (map id (all_nodes c))) as [Hin | Hnin].
    + assert (c = c0) as ->.
      { apply (nodup_same all_nodes cs c c0 (id x)); [by rewrite map_flat_map | done | done | done |].
        by apply in_map, (reach_g_nodes g). }
      apply IH; [done | | done | done | done].
      exact (NoDup_flat_map_In (fun x => map id (all_nodes x)) cs c0 Hcs Hc).
    + by rewrite (admissible_ext _ g c (upd_outside g (id x) b c Hnin)).
Qed.

(** ** The starting assignment *)

Lemma flag_of_node (l : list Item) (z : Item) :
  NoDup (tree_ids l) -> In z (flat_map all_nodes l) -> flag_of l (id z) = isOpen z.
Proof.
  intros Hnd Hz. unfold flag_of.
  destruct (find _ _) as [z'|] eqn:E.
  - apply find_some in E as [Hz' Eid%String.eqb_eq]. f_equal.
    exact (NoDup_map_In_inj id _ z' z Hnd Hz' Hz Eid).
  - pose proof (find_none _ _ E z Hz) as H. simpl in H. by rewrite String.eqb_refl in H.
Qed.

Lemma flag_of_frozen (l : list Item) (r : Item) :
  NoDup (tree_ids l) -> In r l -> frozen (flag_of l) r = true.
Proof.
  intros Hnd Hr. apply frozen_iff. intros z Hz. apply flag_of_node; [done |].
  apply in_flat_map. by exists r.
Qed.

Lemma relabel_flag_of (l : list Item) : NoDup (tree_ids l) -> map (relabel (flag_of l)) l = l.
Proof.
  intros Hnd. transitivity (map (fun x => x) l); [| apply map_id]. apply map_ext_in. intros r Hr.
  apply relabel_self. by apply frozen_iff, flag_of_frozen.
Qed.
