(* ===== verification/Reachable.v ===== *)
(** * Reachable: the states of the click / re-render loop, exactly

    For a forest with known tags and unique ids, the states a run of
    clicks and re-renders can reach are the relabellings of the forest by
    the [admissible] assignments ([Relabel]).  Soundness: a click changes
    one menu's flag, and only a menu whose menus above are open, which keeps
    the assignment admissible.  Completeness: an admissible assignment is
    reached by opening each menu that changes or has changes below it, from
    the root down, setting the flags below it, and then setting its own
    flag on the way back up; each flag is set with one or two clicks.
    Both hold for any lawful owner of the open state. *)

From stdpp Require Import gmap.
From S2P Require Import Prelude Items Styles Render Visible Interaction Liveness Roundtrip Relabel.

Lemma upd_upd g i b1 b2 : forall j, upd (upd g i b1) i b2 j = upd g i b2 j.
Proof. intros j. unfold upd. by destruct (String.eqb j i). Qed.

Lemma upd_same g i b : upd g i b i = Some b.
Proof. unfold upd. by rewrite String.eqb_refl. Qed.

Lemma relabel_map_ext g g' (l : list Item) :
  (forall z, In z (flat_map all_nodes l) -> g (id z) = g' (id z)) -> map (relabel g) l = map (relabel g') l.
Proof.
  intros H. apply map_ext_in. intros r Hr. apply relabel_ext. intros z Hz. apply H.
  apply in_flat_map. by exists r.
Qed.

(** ** One flag, with one or two clicks *)

Section Click.
Variables (cp : string) (top : option bool) (l : list Item).
Hypothesis Hwf : wf_forest l = true.

Lemma click_open g A (x : Item) :
  open_path l g A x -> getItemComponent (type x) = Some CMenu -> children x <> None ->
  step cp top (map (relabel g) l) (map (relabel (upd g (id x) (negb (truthy (g (id x)))))) l).
Proof.
  intros Hp Hty Hch. set (L := map (relabel g) l).
  destruct (render_known cp top L (Some (@owner_set _ TreeOwner))) as [v Hv].
  { unfold L. pose proof Hwf as Hw. rewrite <- (wf_forest_relabel g) in Hw.
    by apply andb_prop in Hw as [Hk _]. }
  destruct (relabel_fields g x) as (_ & Hty' & Hid & Hch' & Ho).
  assert (Hvis : visible L (relabel g x)).
  { apply visible_relabel_iff. exists x. split; [done | by eapply open_path_reach]. }
  assert (Hs : shows (relabel g x) = true).
  { unfold shows. rewrite Hty', Hty, Hch'. apply bool_decide_eq_true_2.
    destruct (children x); [discriminate | congruence]. }
  pose proof (proj2 (shown_visible_iff (default false top) L _) (conj Hvis Hs)) as Hin.
  apply in_map_iff in Hin as ([x' t] & Heq & Hin). simpl in Heq; subst x'.
  eapply (step_click cp top L v t (title (relabel g x)) (toggleOpenState (Some owner_set) (relabel g x)));
    [exact Hv | |].
  - apply (shown_toggle_entry (mkProps None cp top L (Some owner_set))); [exact Hv | exact Hin |].
    by rewrite Hty'.
  - unfold click, toggleOpenState. simpl. f_equal. unfold L. rewrite map_map.
    apply map_ext. intros y. rewrite Hid, Ho. apply set_relabel.
Qed.

(** Any flag of a menu below open menus can be set: one click when it
    flips the flag's truthiness, two otherwise. *)
Lemma set_flag g A (x : Item) b :
  open_path l g A x -> getItemComponent (type x) = Some CMenu -> children x <> None ->
  rtc (step cp top) (map (relabel g) l) (map (relabel (upd g (id x) b)) l).
Proof.
  intros Hp Hty Hch. pose proof (click_open g A x Hp Hty Hch) as H1.
  destruct (bool_eq_dec b (negb (truthy (g (id x))))) as [-> | Hb]; [by apply rtc_once |].
  set (g1 := upd g (id x) (negb (truthy (g (id x))))) in H1.
  assert (Hp1 : open_path l g1 A x).
  { apply (open_path_ext _ g); [done |]. intros i Hi. apply upd_other. intros ->.
    apply (open_path_disjoint l g A x (bool_decide_eq_true_1 _ (proj2 (andb_prop _ _ Hwf))) Hp (id x) Hi).
    apply in_map. destruct x; by left. }
  pose proof (click_open g1 A x Hp1 Hty Hch) as H2.
  eapply rtc_l; [exact H1 |]. apply rtc_once.
  replace (map (relabel (upd g (id x) b)) l)
    with (map (relabel (upd g1 (id x) (negb (truthy (g1 (id x)))))) l); [exact H2 |].
  apply relabel_map_ext. intros z _. unfold g1. rewrite upd_upd, upd_same.
  by destruct b, (truthy (g (id x))).
Qed.
End Click.

Lemma ids_children_sub (x : Item) cs i :
  children x = Some cs -> In i (map id (flat_map all_nodes cs)) -> In i (map id (all_nodes x)).
Proof.
  intros Hcs (z & <- & Hz)%in_map_iff. apply in_map. rewrite all_nodes_unfold, Hcs. by right.
Qed.

(** ** Reaching an admissible assignment *)

Section Build.
Variables (cp : string) (top : option bool) (l : list Item) (g : string -> option bool).
Hypothesis Hwf : wf_forest l = true.

Let Hnd : NoDup (tree_ids l) := bool_decide_eq_true_1 _ (proj2 (andb_prop _ _ Hwf)).

(** From any assignment [h] under which [x] is below open menus and still
    has its flags, a run sets the flags of [x] to those of [g] and changes
    nothing else. *)
Definition builds (x : Item) : Prop :=
  forall h A, open_path l h A x -> (forall z, In z (all_nodes x) -> h (id z) = isOpen z) ->
  admissible g x = true ->
  exists h', rtc (step cp top) (map (relabel h) l) (map (relabel h') l) /\
    (forall z, In z (all_nodes x) -> h' (id z) = g (id z)) /\
    (forall i, ~ In i (map id (all_nodes x)) -> h' i = h i).

(** Siblings one after the other: each run leaves the others' flags and
    the menus above them alone. *)
Lemma build_list A (cs : list Item) :
  (forall c, In c cs -> builds c) ->
  forall h, (forall c, In c cs -> open_path l h A c) ->
  (forall c z, In c cs -> In z (all_nodes c) -> h (id z) = isOpen z) ->
  NoDup (map id (flat_map all_nodes cs)) -> forallb (admissible g) cs = true ->
  exists h', rtc (step cp top) (map (relabel h) l) (map (relabel h') l) /\
    (forall z, In z (flat_map all_nodes cs) -> h' (id z) = g (id z)) /\
    (forall i, ~ In i (map id (flat_map all_nodes cs)) -> h' i = h i).
Proof.
  intros IH. induction cs as [|c cs IHcs]; intros h Hp Hu Hndcs Ha.
  { exists h. split_and!; [apply rtc_refl | done | done]. }
  simpl in Hndcs, Ha. rewrite map_app in Hndcs.
  apply list.NoDup_app in Hndcs as (_ & Hdis & Hnds). apply andb_prop in Ha as [Hac Has].
  assert (Hdis' : forall i, In i (map id (all_nodes c)) -> ~ In i (map id (flat_map all_nodes cs))).
  { intros i Hi Hi'. by apply (Hdis i); apply list_elem_of_In. }
  destruct (IH c (or_introl eq_refl) h A (Hp c (or_introl eq_refl))
              (fun z => Hu c z (or_introl eq_refl)) Hac) as (h1 & R1 & G1 & O1).
  assert (Hp' : forall c', In c' cs -> open_path l h1 A c').
  { intros c' Hc'. apply (open_path_ext _ h); [by apply Hp; right |]. intros i Hi. apply O1.
    exact (open_path_disjoint l h A c Hnd (Hp c (or_introl eq_refl)) i Hi). }
  assert (Hu' : forall c' z, In c' cs -> In z (all_nodes c') -> h1 (id z) = isOpen z).
  { intros c' z Hc' Hz. rewrite O1; [by apply (Hu c'); [right |] |].
    intros Hin. apply (Hdis' _ Hin). rewrite map_flat_map. apply in_flat_map.
    exists c'. split; [done |]. by apply in_map. }
  destruct (IHcs (fun c' Hc' => IH c' (or_intror Hc')) h1 Hp' Hu' Hnds Has) as (h2 & R2 & G2 & O2).
  exists h2. split_and!.
  - etrans; [exact R1 | exact R2].
  - intros z [Hz | Hz]%in_app_or; [| by apply G2].
    rewrite O2; [by apply G1 |]. apply Hdis'. by apply in_map.
  - intros i Hi. simpl in Hi. rewrite map_app in Hi. rewrite O2; [apply O1 |];
      intros Hin; apply Hi; apply in_or_app; [left | right]; done.
Qed.

(** An item that is not active keeps its flags: [g] agrees with them. *)
Lemma build_frozen (x : Item) h :
  active g x = false -> admissible g x = true ->
  (forall z, In z (all_nodes x) -> h (id z) = isOpen z) ->
  forall z, In z (all_nodes x) -> h (id z) = g (id z).
Proof.
  intros Eact Ha Hu z Hz. rewrite Hu by done.
  rewrite admissible_unfold, Eact, orb_false_r in Ha. apply andb_prop in Ha as [Hx%bool_decide_eq_true_1 Hcs].
  rewrite all_nodes_unfold in Hz. destruct Hz as [<- | Hz]; [done |].
  destruct (children x) as [cs|]; [| done]. simpl in Hz, Hcs.
  apply in_flat_map in Hz as (c & Hc & Hz).
  symmetry. apply (proj1 (frozen_iff g c)); [| done]. exact (proj1 (forallb_forall _ _) Hcs c Hc).
Qed.

(** An active menu: open it, build its children, set its flag. *)
Lemma build_active (x : Item) cs bx :
  children x = Some cs -> getItemComponent (type x) = Some CMenu -> g (id x) = Some bx ->
  (forall c, In c cs -> builds c) -> forallb (admissible g) cs = true -> builds x.
Proof.
  intros Hcs Hty Hg IH Ha h A Hp Hu _.
  assert (Hch : children x <> None) by congruence.
  pose proof (nodup_node l x Hnd (open_path_node _ _ _ _ Hp)) as Hndx.
  destruct (nodup_children x cs Hndx Hcs) as [Hj Hndcs].
  pose proof (open_path_disjoint l h A x Hnd Hp) as Hdis.
  assert (Hidx : In (id x) (map id (all_nodes x))) by (apply in_map; destruct x; by left).
  assert (Hout : forall i, In i A -> ~ In i (map id (flat_map all_nodes cs))).
  { intros i Hi Hin. exact (Hdis i Hi (ids_children_sub x cs i Hcs Hin)). }
  (* open [x] *)
  pose proof (set_flag cp top l Hwf h A x true Hp Hty Hch) as R1.
  set (h1 := upd h (id x) true) in R1.
  assert (Hp1 : open_path l h1 A x).
  { apply (open_path_ext _ h); [done |]. intros i Hi. apply upd_other. intros ->. exact (Hdis _ Hi Hidx). }
  assert (Hpc : forall c, In c cs -> open_path l h1 (id x :: A) c).
  { intros c Hc. apply (open_path_child _ _ A x cs c Hp1 Hty Hcs); [| done]. unfold h1. by rewrite upd_same. }
  assert (Huc : forall c z, In c cs -> In z (all_nodes c) -> h1 (id z) = isOpen z).
  { intros c z Hc Hz. unfold h1. rewrite upd_other.
    - apply Hu. rewrite all_nodes_unfold, Hcs. right. apply in_flat_map. by exists c.
    - intros E. apply Hj. rewrite <- E. apply in_map, in_flat_map. by exists c. }
  (* build the children *)
  destruct (build_list (id x :: A) cs IH h1 Hpc Huc Hndcs Ha) as (h2 & R2 & G2 & O2).
  assert (Hp2 : open_path l h2 A x).
  { apply (open_path_ext _ h1); [done |]. intros i Hi. apply O2. by apply Hout. }
  (* set the flag of [x] *)
  pose proof (set_flag cp top l Hwf h2 A x bx Hp2 Hty Hch) as R3.
  exists (upd h2 (id x) bx). split_and!.
  - etrans; [exact R1 |]. etrans; [exact R2 | exact R3].
  - intros z Hz. rewrite all_nodes_unfold, Hcs in Hz. destruct Hz as [<- | Hz].
    + by rewrite upd_same, Hg.
    + rewrite upd_other; [by apply G2 |]. intros E. apply Hj. rewrite <- E. by apply in_map.
  - intros i Hi. assert (i <> id x) by (intros ->; contradiction).
    rewrite upd_other, O2 by (done || (intros Hin; apply Hi; exact (ids_children_sub x cs i Hcs Hin))).
    unfold h1. by rewrite upd_other.
Qed.

Lemma build_tree (x : Item) : builds x.
Proof.
  induction x as [t ty p cs j o IH] using Item_ind.
  intros h A Hp Hu Ha. destruct (active g (mkItem t ty p cs j o)) eqn:Eact.
  - unfold active, settable in Eact. simpl in Eact.
    apply andb_prop in Eact as [[Hty%bool_decide_eq_true_1 Hch%bool_decide_eq_true_1]%andb_prop
                                  Hg%bool_decide_eq_true_1].
    destruct cs as [cs|]; [| done]. destruct (g j) as [bx|] eqn:Egj; [| done].
    rewrite admissible_unfold in Ha. apply andb_prop in Ha as [_ Ha].
    assert (Eact : active g (mkItem t ty p (Some cs) j o) = true).
    { unfold active, settable. simpl. rewrite Egj. by rewrite (bool_decide_eq_true_2 _ Hty). }
    rewrite Eact in Ha. simpl in Ha, IH. rewrite Forall_forall in IH.
    exact (build_active (mkItem t ty p (Some cs) j o) cs bx eq_refl Hty Egj IH Ha h A Hp Hu
             ltac:(by rewrite admissible_unfold, Eact, orb_true_r)).
  - exists h. split_and!; [apply rtc_refl | by apply (build_frozen _ h) | done].
Qed.

Lemma reach_admissible : forallb (admissible g) l = true -> rtc (step cp top) l (map (relabel g) l).
Proof.
  intros Ha.
  assert (Hu : forall c z, In c l -> In z (all_nodes c) -> flag_of l (id z) = isOpen z).
  { intros c z Hc Hz. apply flag_of_node; [done |]. apply in_flat_map. by exists c. }
  destruct (build_list [] l (fun c _ => build_tree c) (flag_of l) (fun c Hc => open_path_root l _ c Hc)
              Hu Hnd Ha) as (h' & R & G & _).
  rewrite (relabel_flag_of l Hnd) in R. rewrite <- (relabel_map_ext h' g l G). exact R.
Qed.
End Build.

(** ** Only admissible assignments are reached *)

Lemma step_admissible cp top (l : list Item) g (L' : list Item) :
  NoDup (tree_ids l) -> forallb (admissible g) l = true -> step cp top (map (relabel g) l) L' ->
  exists g', L' = map (relabel g') l /\ forallb (admissible g') l = true.
Proof.
  intros Hnd Ha Hst. inversion Hst as [s0 v t lab h s1 Hv Hin Hc]; subst s0 s1.
  destruct (click_shown cp top _ v t lab h L' Hv Hin Hc) as (y & Hy & Hty & _ & _ & HL').
  assert (Hvs : visible (map (relabel g) l) y /\ shows y = true).
  { apply (shown_visible_iff (default false top)), in_map_iff. by exists (y, t). }
  destruct Hvs as [(x & -> & Hx)%visible_relabel_iff Hs].
  destruct (relabel_fields g x) as (_ & Htyx & Hid & Hchx & _).
  assert (Hset : settable x = true).
  { unfold shows in Hs. rewrite Hty in Hs. rewrite Htyx in Hty.
    unfold settable. rewrite (bool_decide_eq_true_2 _ Hty). simpl. apply bool_decide_eq_true_2.
    apply bool_decide_eq_true_1 in Hs. rewrite Hchx in Hs. by destruct (children x). }
  exists (upd g (id x) (negb (truthy (isOpen (relabel g x))))). split.
  { change (owner_items L') with L' in HL'. rewrite HL'. cbn [owner_items TreeOwner].
    rewrite map_map. apply map_ext. intros r. rewrite Hid. apply set_relabel. }
  apply forallb_forall. intros r Hr. apply in_flat_map in Hx as (r0 & Hr0 & Hxr0).
  destruct (in_dec String.string_dec (id x) (map id (all_nodes r))) as [Hin' | Hnin].
  - assert (r = r0) as ->.
    { apply (nodup_same all_nodes l r r0 (id x)); [done | done | done | done |].
      by apply in_map, (reach_g_nodes g). }
    apply admissible_upd; [| exact (proj1 (forallb_forall _ _) Ha r0 Hr0) | done | done].
    unfold tree_ids in Hnd. rewrite map_flat_map in Hnd.
    exact (NoDup_flat_map_In (fun x => map id (all_nodes x)) l r0 Hnd Hr0).
  - rewrite (admissible_ext _ g r (upd_outside g (id x) _ r Hnin)).
    exact (proj1 (forallb_forall _ _) Ha r Hr).
Qed.

Lemma run_admissible cp top (l L : list Item) :
  NoDup (tree_ids l) -> rtc (step cp top) l L ->
  exists g, L = map (relabel g) l /\ forallb (admissible g) l = true.
Proof.
  intros Hnd. revert L. apply rtc_ind_r.
  - exists (flag_of l). split; [by rewrite relabel_flag_of |].
    apply forallb_forall. intros r Hr. by apply frozen_admissible, flag_of_frozen.
  - intros L1 L2 _ Hst (g & -> & Ha). exact (step_admissible cp top l g L2 Hnd Ha Hst).
Qed.

(** A run of any lawful owner is a run of the tree owner on what it renders. *)
Lemma run_to_tree {S} `{MenuStateOwnerLaws S} cp top (s s' : S) :
  rtc (step cp top) s s' -> rtc (step (S := list Item) cp top) (owner_items s) (owner_items s').
Proof.
  induction 1 as [s | s s1 s' Hst _ IH]; [apply rtc_refl |].
  inversion Hst as [s0 v t lab h s2 Hv Hin Hc]; subst s0 s2.
  assert (Hu : owner_items (owner_items s : list Item) = owner_items s) by reflexivity.
  destruct (step_transfer cp top s (owner_items s : list Item) v t lab h s1 Hu Hv Hin Hc)
    as (u' & Hu' & E). change (owner_items u') with u' in E. subst u'.
  by eapply rtc_l.
Qed.

Lemma admissible_sub g (r m : Item) : admissible g r = true -> In m (all_nodes r) -> admissible g m = true.
Proof.
  induction r as [t ty p cs j o IH] using Item_ind. intros Ha [<- | Hm]; [done |].
  destruct cs as [cs|]; [| done]. simpl in IH, Hm. rewrite Forall_forall in IH.
  apply in_flat_map in Hm as (c & Hc & Hm). apply (IH c Hc); [| done].
  rewrite admissible_unfold in Ha. apply andb_prop in Ha as [_ Ha]. simpl in Ha.
  pose proof (proj1 (forallb_forall _ _) Ha c Hc) as Hac.
  destruct (active g _); [done | by apply frozen_admissible].
Qed.

Lemma tree_ids_relabel g (l : list Item) : tree_ids (map (relabel g) l) = tree_ids l.
Proof.
  unfold tree_ids. rewrite !map_flat_map. rewrite flat_map_concat_map, map_map, <- flat_map_concat_map.
  apply flat_map_ext. intros x. rewrite all_nodes_relabel, map_map.
  apply map_ext. intros y. apply relabel_fields.
Qed.

Lemma flag_of_relabel g (l : list Item) (z : Item) :
  NoDup (tree_ids l) -> In z (flat_map all_nodes l) -> flag_of (map (relabel g) l) (id z) = g (id z).
Proof.
  intros Hnd Hz. destruct (relabel_fields g z) as (_ & _ & Hid & _ & Ho).
  rewrite <- Ho. rewrite <- Hid at 1. apply flag_of_node.
  - by rewrite tree_ids_relabel.
  - apply in_flat_map in Hz as (r & Hr & Hz). apply in_flat_map. exists (relabel g r).
    split; [by apply in_map |]. rewrite all_nodes_relabel. by apply in_map.
Qed.

(** ** Theorems *)

(** C11: Invariant of the loop.  With unique ids, every state a run of any
    lawful owner reaches renders the starting forest relabelled by an
    admissible assignment: only menus with children change flags, each to
    a defined value, and only those below open-able menus. *)
Theorem reachable_sound {S} `{MenuStateOwnerLaws S} cp top (s s' : S) :
  NoDup (tree_ids (owner_items s)) -> rtc (step cp top) s s' ->
  exists g, owner_items s' = map (relabel g) (owner_items s) /\
    forallb (admissible g) (owner_items s) = true.
Proof. intros Hnd Hrun. exact (run_admissible cp top _ _ Hnd (run_to_tree cp top s s' Hrun)). Qed.

(** C12: Reachability.  On a forest with known tags and unique ids, any
    lawful owner reaches every admissible relabelling by clicks and
    re-renders. *)
Theorem reachable_complete {S} `{MenuStateOwnerLaws S} cp top (s : S) g :
  wf_forest (owner_items s) = true -> forallb (admissible g) (owner_items s) = true ->
  exists s', rtc (step cp top) s s' /\ owner_items s' = map (relabel g) (owner_items s).
Proof.
  intros Hwf Ha. destruct (rtc_nsteps_1 _ _ (reach_admissible cp top _ g Hwf Ha)) as [n Hn].
  destruct (nsteps_transfer cp top n s _ Hn) as (s' & Hs' & E).
  exists s'. split; [by eapply rtc_nsteps_2 | done].
Qed.

(** C13: Safety (boundary).  [undefined] and [false] are different closed
    states: with unique ids, while a menu's flag is still [undefined] after
    a run of any lawful owner, no item below it has changed its flag (it was
    never opened); below a [false] menu items can change and the menu be
    closed again. *)
Theorem undefined_menu_freezes {S} `{MenuStateOwnerLaws S} cp top (s s' : S) (m : Item) cs :
  NoDup (tree_ids (owner_items s)) -> rtc (step cp top) s s' ->
  In m (flat_map all_nodes (owner_items s)) -> children m = Some cs ->
  flag_of (owner_items s') (id m) = None ->
  forall z, In z (flat_map all_nodes cs) -> flag_of (owner_items s') (id z) = isOpen z.
Proof.
  intros Hnd Hrun Hm Hcs Hu z Hz.
  destruct (run_admissible cp top _ _ Hnd (run_to_tree cp top s s' Hrun)) as (g & E & Ha).
  assert (Hzl : In z (flat_map all_nodes (owner_items s))).
  { apply in_flat_map in Hm as (r & Hr & Hm). apply in_flat_map. exists r. split; [done |].
    apply (all_nodes_incl r m Hm). rewrite all_nodes_unfold, Hcs. by right. }
  rewrite E in Hu |- *. rewrite flag_of_relabel in Hu |- * by done.
  apply in_flat_map in Hm as (r & Hr & Hm).
  pose proof (admissible_sub g r m (proj1 (forallb_forall _ _) Ha r Hr) Hm) as Ham.
  assert (Eact : active g m = false) by (unfold active; rewrite Hu; by rewrite andb_false_r).
  rewrite admissible_unfold, Eact, orb_false_r, Hcs in Ham. apply andb_prop in Ham as [_ Hf].
  simpl in Hf. apply in_flat_map in Hz as (c & Hc & Hz).
  exact (proj1 (frozen_iff g c) (proj1 (forallb_forall _ _) Hf c Hc) z Hz).
Qed.

(** ** Witnesses *)

Module ReachExample.
Definition itemN : Item := mkItem "N" "menu" None (Some [Scenario.itemC]) "n" None.
Definition itemM : Item := mkItem "M" "menu" None (Some [itemN]) "m" (Some false).
Definition s0 : list Item := [Scenario.itemA; itemM].
(** N open under a closed M: M has to be opened and closed again. *)
Definition g : string -> option bool := fun i => if String.eqb i "n" then Some true else flag_of s0 i.
End ReachExample.

Lemma reachable_complete_witness :
  wf_forest (owner_items ReachExample.s0) = true /\
  forallb (admissible ReachExample.g) (owner_items ReachExample.s0) = true /\
  exists s', rtc (step "/a" (Some true)) ReachExample.s0 s' /\
    owner_items s' = map (relabel ReachExample.g) (owner_items ReachExample.s0).
Proof.
  assert (Hwf : wf_forest (owner_items ReachExample.s0) = true) by (vm_compute; reflexivity).
  assert (Ha : forallb (admissible ReachExample.g) (owner_items ReachExample.s0) = true)
    by (vm_compute; reflexivity).
  split; [exact Hwf |]. split; [exact Ha |].
  exact (reachable_complete "/a" (Some true) ReachExample.s0 ReachExample.g Hwf Ha).
Defined.

Lemma reachable_sound_witness :
  NoDup (tree_ids (owner_items Example.s0)) /\ rtc (step "/a" (Some true)) Example.s0 Example.s1 /\
  exists g, owner_items Example.s1 = map (relabel g) (owner_items Example.s0) /\
    forallb (admissible g) (owner_items Example.s0) = true.
Proof.
  assert (Hnd : NoDup (tree_ids (owner_items Example.s0))).
  { apply (bool_decide_eq_true_1 _). vm_compute. reflexivity. }
  assert (Hrun : rtc (step "/a" (Some true)) Example.s0 Example.s1).
  { eapply rtc_l; [| apply rtc_refl].
    eapply (step_click "/a" (Some true) Example.s0 _ true "B" Example.h0);
      [reflexivity | simpl; right; left; reflexivity | reflexivity]. }
  split; [exact Hnd |]. split; [exact Hrun |].
  exact (reachable_sound "/a" (Some true) Example.s0 Example.s1 Hnd Hrun).
Defined.

Module FreezeExample.
Definition itemM : Item := mkItem "M" "menu" None (Some [ReachExample.itemN]) "m" None.
Definition itemQ : Item := mkItem "Q" "menu" None (Some [Scenario.itemA]) "q" (Some false).
Definition s0 : list Item := [itemM; itemQ].
Definition h0 : Handler (ToggleArgs -> list Item -> list Item) :=
  mkHandler (Some (@owner_set _ TreeOwner)) (mkToggleArgs "q" true).
Definition s1 : list Item := map (set_open_by_id "q" true) s0.
End FreezeExample.

Lemma undefined_menu_freezes_witness :
  NoDup (tree_ids (owner_items FreezeExample.s0)) /\
  rtc (step "/a" (Some true)) FreezeExample.s0 FreezeExample.s1 /\
  In FreezeExample.itemM (flat_map all_nodes (owner_items FreezeExample.s0)) /\
  flag_of (owner_items FreezeExample.s1) (id FreezeExample.itemM) = None /\
  forall z, In z (flat_map all_nodes [ReachExample.itemN]) ->
    flag_of (owner_items FreezeExample.s1) (id z) = isOpen z.
Proof.
  assert (Hnd : NoDup (tree_ids (owner_items FreezeExample.s0))).
  { apply (bool_decide_eq_true_1 _). vm_compute. reflexivity. }
  assert (Hrun : rtc (step "/a" (Some true)) FreezeExample.s0 FreezeExample.s1).
  { eapply rtc_l; [| apply rtc_refl].
    eapply (step_click "/a" (Some true) FreezeExample.s0 _ true "Q" FreezeExample.h0);
      [reflexivity | simpl; right; left; reflexivity | reflexivity]. }
  assert (Hm : In FreezeExample.itemM (flat_map all_nodes (owner_items FreezeExample.s0)))
    by (simpl; left; reflexivity).
  assert (Hu : flag_of (owner_items FreezeExample.s1) (id FreezeExample.itemM) = None) by reflexivity.
  split; [exact Hnd |]. split; [exact Hrun |]. split; [exact Hm |]. split; [exact Hu |].
  exact (undefined_menu_freezes "/a" (Some true) FreezeExample.s0 FreezeExample.s1 FreezeExample.itemM
           [ReachExample.itemN] Hnd Hrun Hm eq_refl Hu).
Defined.
